(** * brewpyenv: the migration utilities of [util.mjs]

    A shallow embedding of the functions exported by [util.mjs] and the
    properties of its pure core (cache age, formula classification, version
    extraction, symlink command generation) and of its asynchronous steps
    (fetch, install, symlink, reinstall, profile update).

    JavaScript strings are [string], arrays are [list].  Numbers are
    binary64 doubles: an integer-valued one is given by its value in [Z],
    and the subtraction and the division of the time utility round as the
    doubles do.  The asynchronous steps run in a small state-and-exception
    monad over an explicit trace of the observable events. *)

From Stdlib Require Import ZArith Ascii.
From Stdlib Require SpecFloat.
From stdpp Require Import base tactics option list strings gmap.

Local Open Scope Z_scope.

(** ** Strings *)

(** The line feed and the double quote, which the sources write inside
    string and template literals. *)
Definition LF : ascii := ascii_of_nat 10.
Definition DQUOTE : ascii := ascii_of_nat 34.
Definition SLASH : ascii := ascii_of_nat 47.

Definition nl : string := String LF EmptyString.
Definition dq : string := String DQUOTE EmptyString.

(** [s.startsWith(p)] *)
Definition startsWith (s p : string) : bool := String.prefix p s.

(** [s.split(sep)] for a one-character separator: the pieces between the
    separators, empty pieces included; never the empty array. *)
Fixpoint split (sep : ascii) (s : string) : list string :=
  match s with
  | EmptyString => [EmptyString]
  | String c s' =>
      if Ascii.eqb c sep then EmptyString :: split sep s'
      else match split sep s' with
           | [] => [String c EmptyString]
           | h :: t => String c h :: t
           end
  end.

(** [Boolean(s)] on a string: the empty string is the only falsy one. *)
Definition truthy (s : string) : bool :=
  match s with EmptyString => false | _ => true end.

(** ** Numbers *)

(** The integer nearest to the rational [num / den], for [den > 0]; a tie
    goes to the even one. *)
Definition roundHalfEven (num den : Z) : Z :=
  let q := num / den in
  let r := num mod den in
  match 2 * r ?= den with
  | Lt => q
  | Gt => q + 1
  | Eq => if Z.even q then q else q + 1
  end.

(** The exponent [e] with [2^e <= num / den < 2^(e+1)], for [num > 0] and
    [den > 0]: the difference of the binary logarithms, or one less. *)
Definition exponentOf (num den : Z) : Z :=
  let e0 := Z.log2 num - Z.log2 den in
  if num * 2 ^ Z.max 0 (- e0) <? den * 2 ^ Z.max 0 e0 then e0 - 1 else e0.

(** A finite double, [mantissa * 2^exponent]. *)
Record Double := { mantissa : Z; exponent : Z }.

(** The double nearest to the rational [num / den], for [den > 0], ties to
    even, in the range of the normal numbers: the magnitude is scaled into
    [2^52, 2^53), rounded to an integer there and scaled back. *)
Definition roundDouble (num den : Z) : Double :=
  match num with
  | 0 => {| mantissa := 0; exponent := 0 |}
  | _ =>
      let s := 52 - exponentOf (Z.abs num) den in
      let m := roundHalfEven (Z.abs num * 2 ^ Z.max 0 s) (den * 2 ^ Z.max 0 (- s)) in
      {| mantissa := Z.sgn num * m; exponent := - s |}
  end.

(** [x - y] on integer-valued doubles: the exact difference, rounded. *)
Definition subDouble (x y : Z) : Double := roundDouble (x - y) 1.

(** [x / d] for a positive integer [d] that a double holds exactly: the
    exact quotient, rounded. *)
Definition divDouble (x : Double) (d : Z) : Double :=
  roundDouble (mantissa x * 2 ^ Z.max 0 (exponent x))
              (d * 2 ^ Z.max 0 (- exponent x)).

(** [Math.floor(x)]; the result is an integer-valued double. *)
Definition floorDouble (x : Double) : Z :=
  if 0 <=? exponent x then mantissa x * 2 ^ exponent x
  else mantissa x / 2 ^ (- exponent x).

(** ** Time/cache utility *)

(** [1000 * 60 * 60 * 24], which is exact. *)
Definition MS_PER_DAY : Z := 1000 * 60 * 60 * 24.

(** [getDaysOld(lastModified, currentTime)] on integer timestamps:
    [Math.floor((currentTime - lastModified) / (1000 * 60 * 60 * 24))],
    where the subtraction and the division are those of the doubles. *)
Definition getDaysOld (lastModified currentTime : Z) : Z :=
  floorDouble (divDouble (subDouble currentTime lastModified) MS_PER_DAY).

(** [isCacheValid(lastModified, expiryDays)].  The source leaves
    [currentTime] to its default [Date.now()]; [now] is that reading of the
    clock.  Both sides of [<] are integer-valued doubles. *)
Definition isCacheValid (now lastModified expiryDays : Z) : bool :=
  getDaysOld lastModified now <? expiryDays.

(** ** Data model *)

Record Versions := { stable : string }.

(** A formula as [brew info --json=v2] reports it, with the fields the
    module reads. *)
Record Formula := {
  name : string;
  versions : Versions;
  dependencies : list string
}.

(** The object literal [{ name, version, dependencies }] built by
    [identifyBrewPythonPackages]. *)
Record Package := {
  pkg_name : string;
  pkg_version : string;
  pkg_dependencies : list string
}.

Definition PYTHON_AT : string := "python@".

(** [(dep) => dep.startsWith("python@")] *)
Definition isPythonDep (dep : string) : bool := startsWith dep PYTHON_AT.

(** ** Formula classifier *)

(** [formula.dependencies.some((dep) => dep.startsWith("python@"))] *)
Definition dependsOnPython (formula : Formula) : bool :=
  existsb isPythonDep (dependencies formula).

Definition toPackage (formula : Formula) : Package :=
  {| pkg_name := name formula;
     pkg_version := stable (versions formula);
     pkg_dependencies := dependencies formula |}.

Definition identifyBrewPythonPackages (formulae : list Formula) : list Package :=
  map toPackage (List.filter dependsOnPython formulae).

(** ** Version extractor *)

(** A JavaScript [Set] of strings keeps its members in insertion order;
    adding a member that is already there changes nothing. *)
Definition Set_add (s : list string) (x : string) : list string :=
  if bool_decide (x ∈ s) then s else s ++ [x].

(** [new Set(iterable)] adds the elements one after the other; spreading
    the set lists the members in insertion order. *)
Definition Set_from (l : list string) : list string :=
  fold_left Set_add l [].

Definition extractPythonVersions (packages : list Package) : list string :=
  let versions :=
    flat_map (fun pkg => List.filter isPythonDep (pkg_dependencies pkg)) packages in
  Set_from versions.

(** ** Paths: [node:path] on a POSIX platform *)

Module Path.

Definition segments (p : string) : list string := split SLASH p.

(** [path.basename(p)]: trailing separators are dropped and the text
    after the last remaining separator is returned, that is the last
    non-empty segment, or the empty string when there is none. *)
Definition basename (p : string) : string :=
  List.last (List.filter truthy (segments p)) EmptyString.

(** One segment of [normalizeString]: empty and [.] segments vanish,
    [..] removes the segment before it, unless there is none or it is
    [..] itself, where [..] is kept only for a relative path. *)
Definition normalizeStep (allowAboveRoot : bool) (res : list string)
    (seg : string) : list string :=
  if String.eqb seg EmptyString || String.eqb seg "." then res
  else if String.eqb seg ".." then
    match last res with
    | Some prev =>
        if String.eqb prev ".."
        then (if allowAboveRoot then res ++ [".."] else res)
        else removelast res
    | None => if allowAboveRoot then res ++ [".."] else res
    end
  else res ++ [seg].

Definition normalizeString (p : string) (allowAboveRoot : bool) : string :=
  String.concat "/" (fold_left (normalizeStep allowAboveRoot) (segments p) []).

Definition isAbsolute (p : string) : bool :=
  match p with
  | String c _ => Ascii.eqb c SLASH
  | EmptyString => false
  end.

Fixpoint lastChar (p : string) : option ascii :=
  match p with
  | EmptyString => None
  | String c EmptyString => Some c
  | String _ rest => lastChar rest
  end.

Definition trailingSeparator (p : string) : bool :=
  match lastChar p with
  | Some c => Ascii.eqb c SLASH
  | None => false
  end.

(** [path.normalize(p)] *)
Definition normalize (p : string) : string :=
  match p with
  | EmptyString => "."
  | _ =>
      let body := normalizeString p (negb (isAbsolute p)) in
      match body with
      | EmptyString =>
          if isAbsolute p then "/"
          else if trailingSeparator p then "./" else "."
      | _ =>
          let body' := if trailingSeparator p then body +:+ "/" else body in
          if isAbsolute p then "/" +:+ body' else body'
      end
  end.

(** [path.join(...args)]: the non-empty arguments are put together with
    [/] in between and the result is normalized. *)
Definition join (args : list string) : string :=
  match List.filter truthy args with
  | [] => "."
  | parts => normalize (String.concat "/" parts)
  end.

End Path.

(** ** Symlink command builder *)

Definition symlinkCommand (pyenvRoot versionPath : string) : string :=
  let versionName := Path.basename versionPath in
  "ln -s -f " +:+ versionPath +:+ " " +:+
  Path.join [pyenvRoot; "versions"; versionName +:+ "-brew"].

Definition generateSymlinkCommands (pythonDirs : list string)
    (pyenvRoot : string) : list string :=
  map (symlinkCommand pyenvRoot) pythonDirs.

(** The literal reading of the command: the root, [/versions/], the base
    name and [-brew] written one after the other. *)
Definition literalSymlinkCommand (pyenvRoot versionPath : string) : string :=
  "ln -s -f " +:+ versionPath +:+ " " +:+
  pyenvRoot +:+ "/versions/" +:+ Path.basename versionPath +:+ "-brew".

(** A segment that normalization keeps as it is. *)
Definition plainSegment (seg : string) : bool :=
  negb (String.eqb seg EmptyString || String.eqb seg "." || String.eqb seg "..").

(** A root made of plain segments only, absolute [/a/b] or relative [a/b]:
    it is not empty, has no empty, [.] or [..] segment and does not end in
    a separator. *)
Definition cleanRoot (pyenvRoot : string) : bool :=
  match Path.segments pyenvRoot with
  | EmptyString :: rest =>
      match rest with
      | [] => false
      | _ :: _ => forallb plainSegment rest
      end
  | segs => forallb plainSegment segs
  end.

(** ** [String.prototype.replace] with a string pattern *)

Fixpoint dropChars (n : nat) (s : string) : string :=
  match n, s with
  | O, _ => s
  | S n', String _ s' => dropChars n' s'
  | S _, EmptyString => EmptyString
  end.

(** [s.replace(pattern, replacement)]: only the first occurrence of the
    pattern, wherever it starts, is replaced. *)
Fixpoint replace (s pattern replacement : string) : string :=
  if String.prefix pattern s
  then replacement +:+ dropChars (String.length pattern) s
  else match s with
       | EmptyString => EmptyString
       | String c s' => String c (replace s' pattern replacement)
       end.

(** [s.includes(pattern)] *)
Fixpoint includes (s pattern : string) : bool :=
  if String.prefix pattern s then true
  else match s with
       | EmptyString => false
       | String _ s' => includes s' pattern
       end.

(** ** Values read from [brew info --json=v2] *)

Local Set Warnings "-register-all".

Inductive JSON :=
  | JNull
  | JBool (b : bool)
  | JNum (n : Z)
  | JStr (s : string)
  | JArr (items : list JSON)
  | JObj (fields : list (string * JSON)).

(** A JavaScript value that came out of parsed JSON: [None] is
    [undefined]. *)
Definition JSValue : Type := option JSON.

Inductive Error :=
  | ShellError (exitCode : Z)
  | SyntaxError
  | TypeError
  | FsError.

Inductive Result (A : Type) :=
  | Ok (a : A)
  | Throw (e : Error).

Arguments Ok {A} a.
Arguments Throw {A} e.

Fixpoint assoc (k : string) (fields : list (string * JSON)) : JSValue :=
  match fields with
  | [] => None
  | (k', v) :: rest => if String.eqb k k' then Some v else assoc k rest
  end.

(** [info.formulae]: reading a property of [null] throws, an object gives
    its property, and no other parsed value has a property of that name. *)
Definition getFormulae (info : JSON) : Result JSValue :=
  match info with
  | JNull => Throw TypeError
  | JObj fields => Ok (assoc "formulae" fields)
  | _ => Ok None
  end.

(** [v[0]]: reading an index of [undefined] or [null] throws; an array
    gives its first element, or [undefined] when it has none. *)
Definition index0 (v : JSValue) : Result JSValue :=
  match v with
  | None | Some JNull => Throw TypeError
  | Some (JArr items) => Ok (head items)
  | Some (JStr s) =>
      Ok (match s with
          | EmptyString => None
          | String c _ => Some (JStr (String c EmptyString))
          end)
  | Some (JObj fields) => Ok (assoc "0" fields)
  | Some (JBool _) | Some (JNum _) => Ok None
  end.

(** ** The command gateway and the observable events *)

(** A call of the tagged template [$]: the literal pieces of the template,
    the interpolated values, and whether [.quiet()] was applied. *)
Record ShellCall := {
  sh_strings : list string;
  sh_values : list string;
  sh_quiet : bool
}.

Definition sh (pieces values : list string) : ShellCall :=
  {| sh_strings := pieces; sh_values := values; sh_quiet := false |}.

Definition quiet (c : ShellCall) : ShellCall :=
  {| sh_strings := sh_strings c; sh_values := sh_values c; sh_quiet := true |}.

(** The command writes [2>/dev/null] in its own text. *)
Definition discardsStderr (c : ShellCall) : bool :=
  existsb (fun piece => includes piece "2>/dev/null") (sh_strings c).

Inductive Event :=
  | EvShell (c : ShellCall)
  | EvLog (message : string)
  | EvAppend (path data : string).

(** The collaborators the module calls into: the shell of [bun], with the
    exit status and captured output of each command and its decision to
    reject the awaited promise; [JSON.parse]; and whether [appendFile] is
    refused. *)
Record Env (W : Type) := {
  sh_run : ShellCall -> W -> Z * string * W;
  sh_rejects : ShellCall -> Z -> bool;
  json_parse : string -> option JSON;
  fs_denied : string -> W -> bool
}.

Arguments sh_run {W} _ _ _.
Arguments sh_rejects {W} _ _ _.
Arguments json_parse {W} _ _.
Arguments fs_denied {W} _ _ _.

(** The default of the shell of [bun]: the awaited promise of a command
    rejects when the exit status is not zero.  Only [.nothrow()] on the
    command, or the same setting on [$] itself, turns that off, and the
    module applies neither; [.quiet()] and a redirection of stderr leave it
    as it is. *)
Definition bunRejects (c : ShellCall) (exitCode : Z) : bool :=
  negb (exitCode =? 0).

(** The failure signalling that the specification asks of the gateway, to
    be set against the default of [bun]: the gateway rejects when the
    process exits non-zero, unless the command string discards stderr by a
    redirection written in it. *)
Definition specGatewayRejects (c : ShellCall) (exitCode : Z) : bool :=
  negb (exitCode =? 0) && negb (discardsStderr c).

Record State (W : Type) := {
  world : W;
  files : gmap string string;
  trace : list Event
}.

Arguments world {W} _.
Arguments files {W} _.
Arguments trace {W} _.

(** ** Awaited computations *)

(** An awaited computation: it ends in a value or in a thrown error, and
    leaves the state it reached. *)
Definition M (W A : Type) : Type := State W -> Result A * State W.

Definition ret {W A : Type} (a : A) : M W A := fun st => (Ok a, st).

(** Sequencing: a thrown error skips what follows, as an exception that
    nothing catches does. *)
Definition bind {W A B : Type} (m : M W A) (k : A -> M W B) : M W B :=
  fun st =>
    match m st with
    | (Ok a, st') => k a st'
    | (Throw e, st') => (Throw e, st')
    end.

Declare Scope step_scope.
Delimit Scope step_scope with step.
Bind Scope step_scope with M.

Notation "'let*' x := m 'in' k" := (bind m (fun x => k))
  (at level 10, x name, m at level 100, k at level 200) : step_scope.
Notation "'step' m 'in' k" := (bind m (fun _ => k))
  (at level 10, m at level 100, k at level 200) : step_scope.

Local Open Scope step_scope.

Definition liftResult {W A : Type} (r : Result A) : M W A := fun st => (r, st).

Definition emit {W : Type} (e : Event) : M W unit :=
  fun st =>
    (Ok tt, {| world := world st; files := files st; trace := trace st ++ [e] |}).

(** [logger.info(message)] *)
Definition loggerInfo {W : Type} (message : string) : M W unit :=
  emit (EvLog message).

(** [for (const x of xs) { body }] *)
Fixpoint forOf {W A : Type} (xs : list A) (body : A -> M W unit) : M W unit :=
  match xs with
  | [] => ret tt
  | x :: rest => step body x in forOf rest body
  end.

(** A [for ... of] loop whose body updates a local array. *)
Fixpoint forOfAcc {W A B : Type} (xs : list A) (body : B -> A -> M W B)
    (acc : B) : M W B :=
  match xs with
  | [] => ret acc
  | x :: rest => let* acc' := body acc x in forOfAcc rest body acc'
  end.

(** ** The commands *)

(** [$`brew list --formula`] *)
Definition brewList : ShellCall := sh ["brew list --formula"] [].

(** [$`brew info ${formula} --json=v2 2>/dev/null`] *)
Definition brewInfo (formula : string) : ShellCall :=
  sh ["brew info "; " --json=v2 2>/dev/null"] [formula].

(** [$`brew uninstall --ignore-dependencies ${version} 2>/dev/null`.quiet()] *)
Definition brewUninstall (version : string) : ShellCall :=
  quiet (sh ["brew uninstall --ignore-dependencies "; " 2>/dev/null"] [version]).

(** [$`pyenv install -s ${pyVersion}`] *)
Definition pyenvInstall (pyVersion : string) : ShellCall :=
  sh ["pyenv install -s "; EmptyString] [pyVersion].

(** [$`${cmd}`.quiet()] *)
Definition runCommand (cmd : string) : ShellCall :=
  quiet (sh [EmptyString; EmptyString] [cmd]).

(** [$`pyenv rehash`] *)
Definition pyenvRehash : ShellCall := sh ["pyenv rehash"] [].

(** [$`brew reinstall ${pkg.name} 2>/dev/null`.quiet()] *)
Definition brewReinstall (pkgName : string) : ShellCall :=
  quiet (sh ["brew reinstall "; " 2>/dev/null"] [pkgName]).

(** [.split("\n").filter(Boolean)] on the output of the list command. *)
Definition formulaNames (text : string) : list string :=
  List.filter truthy (split LF text).

(** The command built for one version by the callback of [map] in
    [installPyenvVersions]. *)
Definition pyenvInstallFor (version : string) : ShellCall :=
  let pyVersion := replace version PYTHON_AT EmptyString in
  pyenvInstall pyVersion.

Definition zshrcContent : string :=
  nl +:+
  "if command -v pyenv 1>/dev/null 2>&1; then" +:+ nl +:+
  "  eval " +:+ dq +:+ "$(pyenv init --path)" +:+ dq +:+ nl +:+
  "  eval " +:+ dq +:+ "$(pyenv init -)" +:+ dq +:+ nl +:+
  "fi" +:+ nl.

(** ** The asynchronous steps *)

Section Steps.

Context {W : Type} (env : Env W).

(** [await $`...`]: the command runs, and the promise rejects when the
    gateway signals its exit status as a failure. *)
Definition shell (c : ShellCall) : M W string :=
  fun st =>
    let '(exitCode, stdout, w') := sh_run env c (world st) in
    let st' := {| world := w'; files := files st; trace := trace st ++ [EvShell c] |} in
    if sh_rejects env c exitCode then (Throw (ShellError exitCode), st')
    else (Ok stdout, st').

(** [await appendFile(path, data)]: the data goes to the end of the file,
    which is created when it is missing. *)
Definition appendFile (path data : string) : M W unit :=
  fun st =>
    if fs_denied env path (world st) then (Throw FsError, st)
    else (Ok tt,
          {| world := world st;
             files := <[path := default EmptyString (files st !! path) +:+ data]> (files st);
             trace := trace st ++ [EvAppend path data] |}).

(** [await $`...`.json()] *)
Definition shellJson (c : ShellCall) : M W JSON :=
  (let* stdout := shell c in
   match json_parse env stdout with
   | Some v => ret v
   | None => liftResult (Throw SyntaxError)
   end).

(** The body of the loop of [fetchBrewFormulae]: one [info] call, and
    [formulae.push(info.formulae[0])]. *)
Definition fetchOne (formulae : list JSValue) (formula : string)
    : M W (list JSValue) :=
  (let* info := shellJson (brewInfo formula) in
   let* fs := liftResult (getFormulae info) in
   let* first := liftResult (index0 fs) in
   ret (formulae ++ [first])).

Definition fetchBrewFormulae : M W (list JSValue) :=
  (let* text := shell brewList in
   let formulaList := formulaNames text in
   forOfAcc formulaList fetchOne []).

Definition uninstallBrewPythonVersions (pythonVersions : list string) : M W unit :=
  forOf pythonVersions (fun version =>
    step shell (brewUninstall version) in
    loggerInfo ("Uninstalled Brew-managed Python version: " +:+ version)).

(** [Promise.all] over commands that are all started: each one runs, and
    the first rejection, if any, is the one reported. *)
Fixpoint awaitAll (calls : list ShellCall) : M W unit :=
  match calls with
  | [] => ret tt
  | c :: rest =>
      fun st =>
        match shell c st with
        | (Ok _, st') => awaitAll rest st'
        | (Throw e, st') => (Throw e, snd (awaitAll rest st'))
        end
  end.

Definition installPyenvVersions (pythonVersions : list string) : M W unit :=
  let pyenvInstallPromises := map pyenvInstallFor pythonVersions in
  (step awaitAll pyenvInstallPromises in
   loggerInfo "Installed equivalent pyenv-managed Python versions.").

Definition createSymlinks (symlinkCommands : list string) : M W unit :=
  (step forOf symlinkCommands (fun cmd =>
          step shell (runCommand cmd) in
          loggerInfo ("Executed symlink command: " +:+ cmd)) in
   step shell pyenvRehash in
   ret tt).

Definition reinstallBrewPackages (brewPackages : list Package) : M W unit :=
  forOf brewPackages (fun pkg =>
    step shell (brewReinstall (pkg_name pkg)) in
    loggerInfo ("Reinstalled Brew package: " +:+ pkg_name pkg)).

Definition updateZshrc (zshrcPath : string) : M W unit :=
  (step appendFile zshrcPath zshrcContent in
   loggerInfo "Updated .zshrc to prioritize pyenv over Brew-managed Python.").

End Steps.

(** The character [sep] does not occur in [s]. *)
Fixpoint freeOf (sep : ascii) (s : string) : bool :=
  match s with
  | EmptyString => true
  | String c rest => negb (Ascii.eqb c sep) && freeOf sep rest
  end.

(** ** Sample data, after the test suite *)

Definition certbot : Formula :=
  {| name := "certbot"; versions := {| stable := "2.0.0" |};
     dependencies := ["openssl"; "python@3.9"] |}.

Definition ffmpeg : Formula :=
  {| name := "ffmpeg"; versions := {| stable := "4.4" |};
     dependencies := ["libass"; "libvorbis"] |}.

Definition numpy : Formula :=
  {| name := "numpy"; versions := {| stable := "1.21.0" |};
     dependencies := ["python@3.9"] |}.

Definition mockPackages : list Package :=
  [ {| pkg_name := "certbot"; pkg_version := "2.0.0";
       pkg_dependencies := ["openssl"; "python@3.9"] |};
    {| pkg_name := "numpy"; pkg_version := "1.21.0";
       pkg_dependencies := ["python@3.8"; "python@3.9"] |};
    {| pkg_name := "scipy"; pkg_version := "1.7.0";
       pkg_dependencies := ["python@3.7"] |} ].

(** ** Specification-level notions used by the theorems *)

(** The commands of a trace, in the order they were issued. *)
Fixpoint shellCalls (tr : list Event) : list ShellCall :=
  match tr with
  | [] => []
  | EvShell c :: rest => c :: shellCalls rest
  | _ :: rest => shellCalls rest
  end.

(** The messages of a trace, in the order they were logged. *)
Fixpoint logMessages (tr : list Event) : list string :=
  match tr with
  | [] => []
  | EvLog m :: rest => m :: logMessages rest
  | _ :: rest => logMessages rest
  end.

(** [s] starts with [p]: it is [p] followed by something. *)
Definition StartsWith (s p : string) : Prop := exists rest, s = p +:+ rest.

(** A formula one of whose dependencies starts with [python@]. *)
Definition DependsOnPython (formula : Formula) : Prop :=
  exists dep, dep ∈ dependencies formula /\ StartsWith dep "python@".

(** The [info] calls for the listed names, made one after the other from
    the world [w]: each resolves, its output parses, and the first element
    of the [formulae] of the parsed value is read.  [firsts] are those first
    elements, [w2] the world after the last call. *)
Inductive infoRuns {W : Type} (env : Env W) :
    W -> list string -> list JSValue -> W -> Prop :=
  | infoRuns_nil (w : W) : infoRuns env w [] [] w
  | infoRuns_cons (w : W) (formula : string) (rest : list string)
      (exitCode : Z) (stdout : string) (w1 : W) (info : JSON)
      (formulae first : JSValue) (firsts : list JSValue) (w2 : W) :
      sh_run env (brewInfo formula) w = (exitCode, stdout, w1) ->
      sh_rejects env (brewInfo formula) exitCode = false ->
      json_parse env stdout = Some info ->
      getFormulae info = Ok formulae ->
      index0 formulae = Ok first ->
      infoRuns env w1 rest firsts w2 ->
      infoRuns env w (formula :: rest) (first :: firsts) w2.

(** The world after the commands have run one after the other and each has
    resolved; [None] when one of them is rejected. *)
Fixpoint resolveAll {W : Type} (env : Env W) (calls : list ShellCall) (w : W)
    : option W :=
  match calls with
  | [] => Some w
  | c :: rest =>
      let (result, w1) := sh_run env c w in
      if sh_rejects env c (fst result) then None else resolveAll env rest w1
  end.

(** The loop of [createSymlinks], on its own. *)
Definition symlinkLoop {W : Type} (env : Env W) (symlinkCommands : list string)
    : M W unit :=
  forOf symlinkCommands (fun cmd =>
    step shell env (runCommand cmd) in
    loggerInfo ("Executed symlink command: " +:+ cmd)).

(** The events of a complete run of the loop of [createSymlinks]. *)
Definition symlinkEvents (symlinkCommands : list string) : list Event :=
  flat_map (fun cmd =>
              [EvShell {| sh_strings := [EmptyString; EmptyString];
                          sh_values := [cmd]; sh_quiet := true |};
               EvLog ("Executed symlink command: " +:+ cmd)])
           symlinkCommands.

(** The events of a complete run of [reinstallBrewPackages]. *)
Definition reinstallEvents (brewPackages : list Package) : list Event :=
  flat_map (fun pkg =>
              [EvShell {| sh_strings := ["brew reinstall "; " 2>/dev/null"];
                          sh_values := [pkg_name pkg]; sh_quiet := true |};
               EvLog ("Reinstalled Brew package: " +:+ pkg_name pkg)])
           brewPackages.


(** Integer timestamps that doubles hold exactly, and whose difference a
    double holds exactly too. *)
Definition ExactTimes (lastModified now : Z) : Prop :=
  Z.abs lastModified <= 2 ^ 53 /\ Z.abs now <= 2 ^ 53
  /\ Z.abs (now - lastModified) < 2 ^ 53.

(** The computation of [getDaysOld] once more, with the IEEE 754
    operations of the Standard Library at precision 53, to set the model of
    the doubles against. *)
Definition ieeeOfZ (z : Z) : SpecFloat.spec_float :=
  match z with
  | 0 => SpecFloat.S754_zero false
  | Zpos p => SpecFloat.binary_round 53 1024 false p 0
  | Zneg p => SpecFloat.binary_round 53 1024 true p 0
  end.

Definition ieeeFloor (x : SpecFloat.spec_float) : option Z :=
  match x with
  | SpecFloat.S754_zero _ => Some 0
  | SpecFloat.S754_finite sign m e =>
      let v := if sign then Z.neg m else Z.pos m in
      Some (if 0 <=? e then v * 2 ^ e else v / 2 ^ (- e))
  | _ => None
  end.

Definition ieeeDaysOld (lastModified currentTime : Z) : option Z :=
  ieeeFloor
    (SpecFloat.SFdiv 53 1024
       (SpecFloat.SFsub 53 1024 (ieeeOfZ currentTime) (ieeeOfZ lastModified))
       (ieeeOfZ MS_PER_DAY)).

(** ** Sample gateways *)

(** Every command fails with exit status 1, under the default of [bun]. *)
Definition bunFailingEnv : Env unit :=
  {| sh_run := fun _ w => (1, EmptyString, w);
     sh_rejects := bunRejects;
     json_parse := fun _ => None;
     fs_denied := fun _ _ => false |}.

(** Every command fails with exit status 1; the gateway signals failures
    as [specGatewayRejects] says. *)
Definition failingEnv : Env unit :=
  {| sh_run := fun _ w => (1, EmptyString, w);
     sh_rejects := specGatewayRejects;
     json_parse := fun _ => None;
     fs_denied := fun _ _ => false |}.

(** The value that an [info] call of the mocked gateway parses to. *)
Definition mockInfo (records : list JSON) : JSON :=
  JObj [("formulae", JArr records)].

(** The gateway of the test of [fetchBrewFormulae]: the first call answers
    the list of three names, every later call answers [mockInfo records].
    The world counts the calls. *)
Definition mockEnv (records : list JSON) : Env nat :=
  {| sh_run := fun _ calls =>
       (0,
        match calls with
        | O => "formula1" +:+ nl +:+ "formula2" +:+ nl +:+ "formula3"
        | S _ => "{...}"
        end,
        S calls);
     sh_rejects := fun _ _ => false;
     json_parse := fun _ => Some (mockInfo records);
     fs_denied := fun _ _ => false |}.

Definition formula1 : JSON := JObj [("name", JStr "formula1")].

Definition initialState {W : Type} (w : W) : State W :=
  {| world := w; files := ∅; trace := [] |}.

(** ** The root of the version manager *)

(** [process.env]: the variables that are set; reading one that is not
    gives [undefined]. *)
Definition ProcessEnv : Type := gmap string string.

(** [`${v}`] for a string that may be [undefined]. *)
Definition interpolate (v : option string) : string :=
  default "undefined" v.

(** [process.env.PYENV_ROOT || `${process.env.HOME}/.pyenv`]: the left
    side is taken unless it is [undefined] or the empty string. *)
Definition PYENV_ROOT (processEnv : ProcessEnv) : string :=
  match processEnv !! "PYENV_ROOT" with
  | Some root =>
      if truthy root then root
      else interpolate (processEnv !! "HOME") +:+ "/.pyenv"
  | None => interpolate (processEnv !! "HOME") +:+ "/.pyenv"
  end.

(** ** Further notions used by the theorems *)

(** The events of a complete run of [uninstallBrewPythonVersions]. *)
Definition uninstallEvents (pythonVersions : list string) : list Event :=
  flat_map (fun version =>
              [EvShell {| sh_strings := ["brew uninstall --ignore-dependencies ";
                                         " 2>/dev/null"];
                          sh_values := [version]; sh_quiet := true |};
               EvLog ("Uninstalled Brew-managed Python version: " +:+ version)])
           pythonVersions.

(** A gateway on which every command exits with status 0 and is resolved:
    the first call answers the list of three names, and the output of every
    call parses as [parse] says.  The world counts the calls. *)
Definition sampleEnv (parse : string -> option JSON) : Env nat :=
  {| sh_run := fun _ calls =>
       (0,
        match calls with
        | O => "formula1" +:+ nl +:+ "formula2" +:+ nl +:+ "formula3"
        | S _ => "{...}"
        end,
        S calls);
     sh_rejects := fun _ _ => false;
     json_parse := parse;
     fs_denied := fun _ _ => false |}.

(** A gateway on which every command exits with status 0 and prints
    nothing, under the default of [bun]. *)
Definition silentEnv : Env unit :=
  {| sh_run := fun _ w => (0, EmptyString, w);
     sh_rejects := bunRejects;
     json_parse := fun _ => None;
     fs_denied := fun _ _ => false |}.

(** A gateway on which only the third command fails, with exit status 1,
    under the default of [bun].  The world counts the calls. *)
Definition thirdFailsEnv : Env nat :=
  {| sh_run := fun _ calls =>
       (match calls with
        | S (S O) => 1
        | _ => 0
        end, EmptyString, S calls);
     sh_rejects := bunRejects;
     json_parse := fun _ => None;
     fs_denied := fun _ _ => false |}.

(** ** Numbers: properties *)

Lemma MS_PER_DAY_value : MS_PER_DAY = 86400000.
Proof. reflexivity. Qed.

Lemma roundHalfEven_cases (num den : Z) :
  0 < den ->
  (roundHalfEven num den = num / den /\ 2 * (num mod den) <= den)
  \/ (roundHalfEven num den = num / den + 1 /\ den <= 2 * (num mod den)).
Proof.
  intros Hden. unfold roundHalfEven.
  destruct (Z.compare_spec (2 * (num mod den)) den) as [Heq|Hlt|Hgt].
  - destruct (Z.even (num / den)); [left|right]; split; lia.
  - left. split; lia.
  - right. split; lia.
Qed.

Lemma roundHalfEven_exact (num den : Z) :
  0 < den -> num mod den = 0 -> roundHalfEven num den = num / den.
Proof.
  intros Hden Hmod. unfold roundHalfEven. rewrite Hmod.
  destruct (Z.compare_spec (2 * 0) den); lia.
Qed.

Lemma exponentOf_small (num den : Z) :
  0 < num -> 0 < den -> num < 2 ^ 27 * den -> exponentOf num den <= 26.
Proof.
  intros Hnum Hden Hlt. unfold exponentOf.
  destruct (Z.log2_spec num Hnum) as [Hn1 Hn2].
  destruct (Z.log2_spec den Hden) as [Hd1 Hd2].
  pose proof (Z.log2_nonneg num) as Hn0. pose proof (Z.log2_nonneg den) as Hd0.
  assert (He0 : Z.log2 num - Z.log2 den <= 27).
  { destruct (Z_le_gt_dec (Z.log2 num - Z.log2 den) 27) as [|Hbig]; [assumption|].
    exfalso.
    assert (Hpow : 2 ^ (Z.log2 den + 28) <= 2 ^ Z.log2 num)
      by (apply Z.pow_le_mono_r; lia).
    replace (Z.log2 den + 28) with (27 + Z.succ (Z.log2 den)) in Hpow by lia.
    rewrite Z.pow_add_r in Hpow by lia.
    change (2 ^ 27) with 134217728 in *. lia. }
  set (e0 := Z.log2 num - Z.log2 den) in *.
  destruct (Z.ltb_spec (num * 2 ^ Z.max 0 (- e0)) (den * 2 ^ Z.max 0 e0)) as [|Hge];
    [lia|].
  destruct (Z.eq_dec e0 27) as [He|]; [|lia].
  exfalso. rewrite He in Hge. change (Z.max 0 (- 27)) with 0 in Hge.
  change (Z.max 0 27) with 27 in Hge. rewrite Z.pow_0_r in Hge. lia.
Qed.

(** The rounded quotient has the exact floor when the quotient is below
    2^27 and its distance to the nearest integers is at least 1/D. *)
Lemma floor_roundDouble (num den D : Z) :
  0 < num -> 0 < den -> 0 < D < 2 ^ 27 ->
  num < 2 ^ 27 * den ->
  (num mod den = 0
   \/ (den <= D * (num mod den) /\ den <= D * (den - num mod den))) ->
  floorDouble (roundDouble num den) = num / den
  /\ floorDouble (roundDouble (- num) den) = (- num) / den.
Proof.
  intros Hnum Hden HD Hlt Hfrac.
  pose proof (exponentOf_small num den Hnum Hden Hlt) as He.
  set (s := 52 - exponentOf num den).
  assert (Hs : 26 <= s) by (unfold s; lia).
  set (P := 2 ^ s).
  assert (HP : 2 ^ 26 <= P) by (apply Z.pow_le_mono_r; lia).
  change (2 ^ 26) with 67108864 in HP. change (2 ^ 27) with 134217728 in *.
  set (m := roundHalfEven (num * P) den).
  assert (Hpos : roundDouble num den = {| mantissa := m; exponent := - s |}).
  { unfold roundDouble. destruct num as [|p|p]; try lia.
    cbv zeta. rewrite Z.abs_eq by lia. fold s.
    rewrite (Z.max_r 0 s), (Z.max_l 0 (- s)) by lia.
    rewrite Z.pow_0_r, Z.mul_1_r. fold P. fold m.
    f_equal; change (Z.sgn (Z.pos p)) with 1; lia. }
  assert (Hneg : roundDouble (- num) den = {| mantissa := - m; exponent := - s |}).
  { unfold roundDouble. destruct num as [|p|p]; try lia.
    change (- Z.pos p) with (Z.neg p). cbv zeta.
    change (Z.abs (Z.neg p)) with (Z.pos p). fold s.
    rewrite (Z.max_r 0 s), (Z.max_l 0 (- s)) by lia.
    rewrite Z.pow_0_r, Z.mul_1_r. fold P. fold m.
    f_equal; change (Z.sgn (Z.neg p)) with (-1); lia. }
  rewrite Hpos, Hneg. unfold floorDouble. cbn [exponent mantissa].
  destruct (Z.leb_spec 0 (- s)) as [|_]; [lia|].
  rewrite Z.opp_involutive. fold P.
  set (k := num / den). set (r := num mod den).
  assert (Hdm : num = den * k + r) by (apply Z.div_mod; lia).
  assert (Hr : 0 <= r < den) by (apply Z.mod_pos_bound; lia).
  fold r in Hfrac.
  destruct Hfrac as [Hr0 | [Hlow Hhigh]].
  - assert (Hm : m = k * P).
    { unfold m. rewrite roundHalfEven_exact; try lia.
      + replace (num * P) with (k * P * den) by (rewrite Hdm; lia).
        apply Z.div_mul. lia.
      + replace (num * P) with (k * P * den) by (rewrite Hdm; lia).
        apply Z.mod_mul. lia. }
    rewrite Hm. split.
    + apply Z.div_mul. lia.
    + replace (- (k * P)) with (- k * P) by lia. rewrite Z.div_mul by lia.
      replace (- num) with (- k * den) by lia. now rewrite Z.div_mul by lia.
  - assert (Hrpos : 0 < r) by nia.
    set (q' := num * P / den) in *. set (r' := (num * P) mod den) in *.
    assert (Hdm' : num * P = den * q' + r') by (apply Z.div_mod; lia).
    assert (Hr' : 0 <= r' < den) by (apply Z.mod_pos_bound; lia).
    assert (Hq1 : k * P <= q').
    { unfold q'. apply Z.div_le_lower_bound; [lia|]. nia. }
    assert (Hq2 : q' < (k + 1) * P).
    { unfold q'. apply Z.div_lt_upper_bound; [lia|]. nia. }
    assert (Hm : k * P < m < (k + 1) * P).
    { destruct (roundHalfEven_cases (num * P) den Hden) as [[Hm Hhalf]|[Hm Hhalf]];
        fold m q' r' in Hm, Hhalf.
      - split; [|lia].
        destruct (Z.eq_dec q' (k * P)) as [Heq|]; [|lia]. exfalso.
        assert (r' = r * P) by nia. nia.
      - split; [lia|].
        destruct (Z.eq_dec q' ((k + 1) * P - 1)) as [Heq|]; [|lia]. exfalso.
        assert (r' = den - (den - r) * P) by nia. nia. }
    split.
    + symmetry. apply Z.div_unique with (m - k * P); lia.
    + assert (Hk : (- num) / den = - (k + 1)).
      { symmetry. apply Z.div_unique with (den - r); lia. }
      rewrite Hk. symmetry. apply Z.div_unique with ((k + 1) * P - m); lia.
Qed.

(** An integer below 2^53 in magnitude is a double: rounding it changes
    nothing. *)
Lemma roundDouble_integer (z : Z) :
  z <> 0 -> Z.abs z < 2 ^ 53 ->
  exists s, 0 <= s /\ roundDouble z 1 = {| mantissa := z * 2 ^ s; exponent := - s |}.
Proof.
  intros Hz Hlt.
  assert (Hpos : 0 < Z.abs z) by lia.
  destruct (Z.log2_spec (Z.abs z) Hpos) as [Hl1 Hl2].
  pose proof (Z.log2_nonneg (Z.abs z)) as Hl0.
  assert (Hl53 : Z.log2 (Z.abs z) < 53) by (apply Z.log2_lt_pow2; lia).
  assert (He : exponentOf (Z.abs z) 1 = Z.log2 (Z.abs z)).
  { unfold exponentOf. change (Z.log2 1) with 0. rewrite Z.sub_0_r.
    rewrite (Z.max_l 0 (- Z.log2 (Z.abs z))), (Z.max_r 0 (Z.log2 (Z.abs z))) by lia.
    rewrite Z.pow_0_r.
    destruct (Z.ltb_spec (Z.abs z * 1) (1 * 2 ^ Z.log2 (Z.abs z))); lia. }
  exists (52 - Z.log2 (Z.abs z)). split; [lia|].
  unfold roundDouble. destruct z as [|p|p]; [congruence| |]; cbv zeta;
    rewrite He;
    rewrite (Z.max_r 0 (52 - _)), (Z.max_l 0 (- (52 - _))) by lia;
    rewrite Z.pow_0_r, Z.mul_1_r;
    (rewrite roundHalfEven_exact; [|lia|apply Z.mod_1_r]);
    rewrite Z.div_1_r; f_equal; lia.
Qed.

(** Within [ExactTimes] the doubles make no difference: the age is the
    exact floor quotient. *)
Lemma getDaysOld_exact (lastModified now : Z) :
  Z.abs (now - lastModified) < 2 ^ 53 ->
  getDaysOld lastModified now = (now - lastModified) / 86400000.
Proof.
  intros Hlt. unfold getDaysOld, subDouble. rewrite MS_PER_DAY_value.
  set (z := now - lastModified) in *.
  destruct (Z.eq_dec z 0) as [->|Hz]; [reflexivity|].
  destruct (roundDouble_integer z Hz Hlt) as (s & Hs & ->).
  unfold divDouble. cbn [mantissa exponent].
  rewrite (Z.max_l 0 (- s)), Z.opp_involutive, (Z.max_r 0 s) by lia.
  rewrite Z.pow_0_r, Z.mul_1_r.
  set (P := 2 ^ s).
  assert (HP : 0 < P) by (apply Z.pow_pos_nonneg; lia).
  change (2 ^ 53) with 9007199254740992 in Hlt.
  assert (Hmain : forall a, 0 < a -> a < 9007199254740992 ->
             floorDouble (roundDouble (a * P) (86400000 * P)) = a / 86400000
             /\ floorDouble (roundDouble (- (a * P)) (86400000 * P))
                = (- a) / 86400000).
  { intros a Ha Hbound.
    destruct (floor_roundDouble (a * P) (86400000 * P) 86400000) as [Hp Hn].
    - nia.
    - lia.
    - change (2 ^ 27) with 134217728. lia.
    - change (2 ^ 27) with 134217728. nia.
    - rewrite Z.mul_mod_distr_r by lia.
      pose proof (Z.mod_pos_bound a 86400000 ltac:(lia)) as Hr.
      destruct (Z.eq_dec (a mod 86400000) 0) as [->|Hne]; [left; lia|right].
      split; nia.
    - rewrite Hp, Hn. rewrite Z.div_mul_cancel_r by lia.
      replace (- (a * P)) with (- a * P) by lia.
      now rewrite Z.div_mul_cancel_r by lia. }
  destruct (Z_lt_le_dec 0 z) as [Hpos|Hneg].
  - apply (Hmain z); lia.
  - replace (z * P) with (- (- z * P)) by lia.
    replace z with (- - z) at 2 by lia.
    apply (Hmain (- z)); lia.
Qed.

(** The model of the doubles and the IEEE 754 operations of the Standard
    Library agree where the rounding shows, and elsewhere. *)
Example getDaysOld_ieee :
  ieeeDaysOld (-8639999999999999) 8640000000000000
  = Some (getDaysOld (-8639999999999999) 8640000000000000)
  /\ ieeeDaysOld (-4503599611199999) 4503599697600000
     = Some (getDaysOld (-4503599611199999) 4503599697600000)
  /\ ieeeDaysOld 1700000000000 1700432000000
     = Some (getDaysOld 1700000000000 1700432000000)
  /\ ieeeDaysOld 1700000000001 1700000000000
     = Some (getDaysOld 1700000000001 1700000000000)
  /\ ieeeDaysOld 0 86399999 = Some (getDaysOld 0 86399999)
  /\ ieeeDaysOld (-9007199254740992) 9007199254740992
     = Some (getDaysOld (-9007199254740992) 9007199254740992).
Proof. repeat split; vm_compute; reflexivity. Qed.

(** ** Time/cache utility: properties *)

Lemma getDaysOld_floor (lastModified now : Z) :
  Z.abs (now - lastModified) < 2 ^ 53 ->
  getDaysOld lastModified now * 86400000 <= now - lastModified
    < (getDaysOld lastModified now + 1) * 86400000.
Proof.
  intros Hexact. rewrite (getDaysOld_exact _ _ Hexact).
  pose proof (Z.div_mod (now - lastModified) 86400000 ltac:(lia)) as Hdm.
  pose proof (Z.mod_pos_bound (now - lastModified) 86400000 ltac:(lia)) as Hb.
  lia.
Qed.

Lemma getDaysOld_unique (lastModified now d : Z) :
  Z.abs (now - lastModified) < 2 ^ 53 ->
  d * 86400000 <= now - lastModified < (d + 1) * 86400000 ->
  getDaysOld lastModified now = d.
Proof.
  intros Hexact H. pose proof (getDaysOld_floor lastModified now Hexact) as Hf.
  nia.
Qed.

Lemma isCacheValid_iff (now lastModified expiryDays : Z) :
  isCacheValid now lastModified expiryDays = true
  <-> getDaysOld lastModified now < expiryDays.
Proof. unfold isCacheValid. apply Z.ltb_lt. Qed.

(** C6, as amended: for integer timestamps that doubles hold exactly and
    whose difference is below 2^53 in magnitude, the age in days is the
    floor of the elapsed milliseconds over 86,400,000, with no bounds check
    (a timestamp in the future has a negative age); the cache is valid
    exactly when its age is strictly below the expiry, so a cache exactly
    [expiryDays] old, and in particular one seven days old against an
    expiry of seven, is invalid. *)
Theorem cache_age_and_validity (lastModified now expiryDays : Z) :
  ExactTimes lastModified now ->
  getDaysOld lastModified now = (now - lastModified) / 86400000
  /\ (forall d : Z,
        getDaysOld lastModified now = d
        <-> d * 86400000 <= now - lastModified < (d + 1) * 86400000)
  /\ (now < lastModified -> getDaysOld lastModified now < 0)
  /\ (isCacheValid now lastModified expiryDays = true
      <-> getDaysOld lastModified now < expiryDays)
  /\ (getDaysOld lastModified now = expiryDays ->
      isCacheValid now lastModified expiryDays = false)
  /\ (now - lastModified = 7 * 86400000 ->
      isCacheValid now lastModified 7 = false).
Proof.
  intros (_ & _ & Hexact).
  split; [apply getDaysOld_exact, Hexact|].
  split.
  { intros d. split.
    - intros <-. apply getDaysOld_floor, Hexact.
    - apply getDaysOld_unique, Hexact. }
  split.
  { intros Hfuture. pose proof (getDaysOld_floor lastModified now Hexact). lia. }
  split; [apply isCacheValid_iff|].
  split.
  { intros Heq. apply not_true_is_false. rewrite isCacheValid_iff. lia. }
  intros Hseven. apply not_true_is_false. rewrite isCacheValid_iff.
  rewrite (getDaysOld_unique lastModified now 7 Hexact); lia.
Qed.

Lemma cache_age_and_validity_witness :
  ExactTimes (86400000 * 3 + 1000) 1000
  /\ getDaysOld (86400000 * 3 + 1000) 1000 < 0
  /\ ExactTimes 1700000000000 (1700000000000 + 7 * 86400000)
  /\ isCacheValid (1700000000000 + 7 * 86400000) 1700000000000 7 = false.
Proof.
  assert (Hfuture : ExactTimes (86400000 * 3 + 1000) 1000)
    by (unfold ExactTimes; change (2 ^ 53) with 9007199254740992; lia).
  assert (Hweek : ExactTimes 1700000000000 (1700000000000 + 7 * 86400000))
    by (unfold ExactTimes; change (2 ^ 53) with 9007199254740992; lia).
  pose proof (cache_age_and_validity (86400000 * 3 + 1000) 1000 7 Hfuture)
    as (_ & _ & Hneg & _ & _ & _).
  pose proof (cache_age_and_validity 1700000000000
                (1700000000000 + 7 * 86400000) 7 Hweek)
    as (_ & _ & _ & _ & _ & Hedge).
  split; [exact Hfuture|]. split; [apply Hneg; lia|].
  split; [exact Hweek|]. apply Hedge. lia.
Defined.

(** Two timestamps that are valid time values, but more than 2^53
    milliseconds apart: the subtraction rounds the odd difference
    17279999999999999 up to 17280000000000000, and the age comes out as
    200000000 days where the exact floor is 199999999; a cache of that age
    is then invalid against an expiry of 200000000 days. *)
Lemma cache_age_rounding_counterexample :
  Z.abs (-8639999999999999) <= 2 ^ 53
  /\ Z.abs 8640000000000000 <= 2 ^ 53
  /\ getDaysOld (-8639999999999999) 8640000000000000 = 200000000
  /\ (8640000000000000 - (-8639999999999999)) / 86400000 = 199999999
  /\ isCacheValid 8640000000000000 (-8639999999999999) 200000000 = false
  /\ ~ (forall lastModified now : Z,
          Z.abs lastModified <= 2 ^ 53 -> Z.abs now <= 2 ^ 53 ->
          getDaysOld lastModified now = (now - lastModified) / 86400000).
Proof.
  assert (Hdays : getDaysOld (-8639999999999999) 8640000000000000 = 200000000)
    by (vm_compute; reflexivity).
  split; [vm_compute; discriminate|]. split; [vm_compute; discriminate|].
  split; [exact Hdays|]. split; [reflexivity|].
  split; [vm_compute; reflexivity|].
  intros Hall.
  specialize (Hall (-8639999999999999) 8640000000000000).
  rewrite Hdays in Hall.
  assert (Heq : 200000000 = (8640000000000000 - -8639999999999999) / 86400000).
  { apply Hall; vm_compute; discriminate. }
  vm_compute in Heq. discriminate.
Qed.

(** ** Strings: properties *)

Lemma prefix_StartsWith (p s : string) :
  String.prefix p s = true <-> StartsWith s p.
Proof.
  unfold StartsWith. revert s. induction p as [|a p IH]; intros s.
  - split; [intros _; exists s; reflexivity | intros _; destruct s; reflexivity].
  - destruct s as [|b s]; simpl.
    + split; [discriminate | intros [rest Hrest]].
      change (EmptyString = String a (p +:+ rest)) in Hrest. discriminate.
    + destruct (ascii_dec a b) as [->|Hne].
      * rewrite IH. split; intros [rest Hrest]; exists rest.
        -- rewrite Hrest. reflexivity.
        -- change (String b s = String b (p +:+ rest)) in Hrest.
           now inversion Hrest.
      * split; [discriminate|]. intros [rest Hrest].
        change (String b s = String a (p +:+ rest)) in Hrest.
        inversion Hrest. congruence.
Qed.

Lemma isPythonDep_spec (dep : string) :
  isPythonDep dep = true <-> StartsWith dep "python@".
Proof. apply prefix_StartsWith. Qed.

Lemma dependsOnPython_spec (formula : Formula) :
  dependsOnPython formula = true <-> DependsOnPython formula.
Proof.
  unfold dependsOnPython, DependsOnPython. rewrite existsb_exists.
  split; intros (dep & Hin & Hdep); exists dep.
  - split; [now apply list_elem_of_In | now apply isPythonDep_spec].
  - split; [now apply list_elem_of_In | now apply isPythonDep_spec].
Qed.

(** ** Formula classifier: properties *)

(** C3: the classifier keeps exactly the formulae that have a dependency
    starting with [python@], in input order, and projects each to its name,
    its stable version and its whole dependency list; nothing comes out of
    the empty list. *)
Theorem identifyBrewPythonPackages_spec :
  identifyBrewPythonPackages [] = []
  /\ (forall formula formulae,
        DependsOnPython formula ->
        identifyBrewPythonPackages (formula :: formulae)
        = {| pkg_name := name formula;
             pkg_version := stable (versions formula);
             pkg_dependencies := dependencies formula |}
          :: identifyBrewPythonPackages formulae)
  /\ (forall formula formulae,
        ~ DependsOnPython formula ->
        identifyBrewPythonPackages (formula :: formulae)
        = identifyBrewPythonPackages formulae)
  /\ (forall formulae pkg,
        pkg ∈ identifyBrewPythonPackages formulae
        <-> exists formula,
              formula ∈ formulae /\ DependsOnPython formula
              /\ pkg_name pkg = name formula
              /\ pkg_version pkg = stable (versions formula)
              /\ pkg_dependencies pkg = dependencies formula).
Proof.
  split; [reflexivity|].
  split.
  { intros formula formulae Hdep. apply dependsOnPython_spec in Hdep.
    unfold identifyBrewPythonPackages. simpl. now rewrite Hdep. }
  split.
  { intros formula formulae Hdep. rewrite <- dependsOnPython_spec in Hdep.
    apply not_true_is_false in Hdep.
    unfold identifyBrewPythonPackages. simpl. now rewrite Hdep. }
  intros formulae pkg. unfold identifyBrewPythonPackages.
  rewrite list_elem_of_In, in_map_iff. split.
  - intros (formula & <- & Hin). apply filter_In in Hin as [Hin Hdep].
    exists formula. rewrite list_elem_of_In, <- dependsOnPython_spec. auto.
  - intros (formula & Hin & Hdep & Hn & Hv & Hd). exists formula. split.
    + destruct pkg; simpl in *; subst; reflexivity.
    + apply filter_In. rewrite <- list_elem_of_In, dependsOnPython_spec. auto.
Qed.

Lemma identifyBrewPythonPackages_spec_witness :
  DependsOnPython certbot
  /\ identifyBrewPythonPackages [certbot; ffmpeg; numpy]
     = {| pkg_name := "certbot"; pkg_version := "2.0.0";
          pkg_dependencies := ["openssl"; "python@3.9"] |}
       :: identifyBrewPythonPackages [ffmpeg; numpy].
Proof.
  assert (Hdep : DependsOnPython certbot).
  { exists "python@3.9". split.
    - apply list_elem_of_In. simpl. auto.
    - exists "3.9". reflexivity. }
  split; [exact Hdep|].
  destruct identifyBrewPythonPackages_spec as (_ & Hkeep & _ & _).
  exact (Hkeep certbot [ffmpeg; numpy] Hdep).
Defined.

Example identifyBrewPythonPackages_test :
  identifyBrewPythonPackages [certbot; ffmpeg; numpy]
  = [ {| pkg_name := "certbot"; pkg_version := "2.0.0";
         pkg_dependencies := ["openssl"; "python@3.9"] |};
      {| pkg_name := "numpy"; pkg_version := "1.21.0";
         pkg_dependencies := ["python@3.9"] |} ].
Proof. reflexivity. Qed.

(** ** Version extractor: properties *)

Lemma Set_add_elem (s : list string) (x y : string) :
  y ∈ Set_add s x <-> y ∈ s \/ y = x.
Proof.
  unfold Set_add. case_bool_decide as Hin.
  - split; [auto|]. intros [?| ->]; assumption.
  - rewrite elem_of_app, list_elem_of_singleton. reflexivity.
Qed.

Lemma Set_add_NoDup (s : list string) (x : string) :
  NoDup s -> NoDup (Set_add s x).
Proof.
  intros Hs. unfold Set_add. case_bool_decide as Hin; [assumption|].
  apply NoDup_app. split; [assumption|]. split.
  - intros y Hy Hy'. apply list_elem_of_singleton in Hy'. congruence.
  - apply NoDup_singleton.
Qed.

Lemma Set_fold_elem (l acc : list string) (y : string) :
  y ∈ fold_left Set_add l acc <-> y ∈ acc \/ y ∈ l.
Proof.
  revert acc. induction l as [|x l IH]; intros acc; simpl.
  - rewrite elem_of_nil. tauto.
  - rewrite IH, Set_add_elem, elem_of_cons. tauto.
Qed.

Lemma Set_fold_NoDup (l acc : list string) :
  NoDup acc -> NoDup (fold_left Set_add l acc).
Proof.
  revert acc. induction l as [|x l IH]; intros acc Hacc; simpl; [assumption|].
  apply IH, Set_add_NoDup, Hacc.
Qed.

(** Members, once inserted, keep their place: the set only grows at its
    end. *)
Lemma Set_fold_extends (l acc : list string) :
  exists ext, fold_left Set_add l acc = acc ++ ext.
Proof.
  revert acc. induction l as [|x l IH]; intros acc; simpl.
  - exists []. now rewrite app_nil_r.
  - destruct (IH (Set_add acc x)) as [ext Hext]. rewrite Hext.
    unfold Set_add. case_bool_decide.
    + now exists ext.
    + exists (x :: ext). now rewrite <- app_assoc.
Qed.

Lemma Set_from_first_occurrence (before after : list string) (x : string) :
  x ∉ before ->
  exists o2, Set_from (before ++ x :: after) = Set_from before ++ x :: o2.
Proof.
  intros Hfresh. unfold Set_from. rewrite fold_left_app. simpl.
  assert (Hnew : Set_add (fold_left Set_add before []) x
                 = fold_left Set_add before [] ++ [x]).
  { unfold Set_add. case_bool_decide as Hin; [|reflexivity].
    apply Set_fold_elem in Hin as [Hin|Hin]; [|contradiction].
    now apply elem_of_nil in Hin. }
  rewrite Hnew.
  destruct (Set_fold_extends after (fold_left Set_add before [] ++ [x]))
    as [ext Hext].
  exists ext. rewrite Hext, <- app_assoc. reflexivity.
Qed.

Lemma flat_map_filter_concat (packages : list Package) :
  flat_map (fun pkg => List.filter isPythonDep (pkg_dependencies pkg)) packages
  = List.filter isPythonDep (concat (map pkg_dependencies packages)).
Proof.
  induction packages as [|pkg packages IH]; simpl; [reflexivity|].
  now rewrite List.filter_app, IH.
Qed.

(** C4: the extractor yields the [python@] entries of the concatenated
    dependency lists, each distinct entry once, placed after exactly the
    distinct entries that come before its first occurrence (so in order of
    first occurrence, not sorted); it is empty when there is no such
    entry. *)
Theorem extractPythonVersions_spec (packages : list Package) :
  let candidates :=
    List.filter isPythonDep (concat (map pkg_dependencies packages)) in
  let out := extractPythonVersions packages in
  NoDup out
  /\ (forall x, x ∈ out <-> x ∈ candidates)
  /\ (forall x,
        x ∈ out
        <-> exists pkg, pkg ∈ packages /\ x ∈ pkg_dependencies pkg
                        /\ StartsWith x "python@")
  /\ (forall before x after,
        candidates = before ++ x :: after ->
        x ∉ before ->
        exists o1 o2,
          out = o1 ++ x :: o2 /\ NoDup o1 /\ forall y, y ∈ o1 <-> y ∈ before)
  /\ (candidates = [] -> out = []).
Proof.
  intros candidates out.
  assert (Hout : out = Set_from candidates).
  { unfold out, extractPythonVersions, candidates.
    now rewrite flat_map_filter_concat. }
  assert (Hmem : forall x, x ∈ out <-> x ∈ candidates).
  { intros x. rewrite Hout. unfold Set_from. rewrite Set_fold_elem, elem_of_nil.
    tauto. }
  split.
  { rewrite Hout. apply Set_fold_NoDup, NoDup_nil_2. }
  split; [exact Hmem|].
  split.
  { intros x. rewrite Hmem. unfold candidates.
    rewrite list_elem_of_In, filter_In, in_concat. split.
    - intros [(deps & Hdeps & Hx) Hpy]. apply in_map_iff in Hdeps
        as (pkg & <- & Hpkg).
      exists pkg. rewrite !list_elem_of_In, <- isPythonDep_spec. auto.
    - intros (pkg & Hpkg & Hx & Hpy). split.
      + exists (pkg_dependencies pkg). split.
        * apply in_map_iff. exists pkg. split; [reflexivity|].
          now apply list_elem_of_In.
        * now apply list_elem_of_In.
      + now apply isPythonDep_spec. }
  split.
  { intros before x after Hsplit Hfresh. rewrite Hout, Hsplit.
    destruct (Set_from_first_occurrence before after x Hfresh) as [o2 Ho2].
    exists (Set_from before), o2. split; [exact Ho2|]. split.
    - apply Set_fold_NoDup, NoDup_nil_2.
    - intros y. unfold Set_from. rewrite Set_fold_elem, elem_of_nil. tauto. }
  intros Hnone. rewrite Hout, Hnone. reflexivity.
Qed.

Lemma extractPythonVersions_spec_witness :
  ("python@3.8" ∉ ["python@3.9"])
  /\ exists o1 o2,
       extractPythonVersions mockPackages = o1 ++ "python@3.8" :: o2
       /\ NoDup o1 /\ forall y, y ∈ o1 <-> y ∈ ["python@3.9"].
Proof.
  assert (Hfresh : "python@3.8" ∉ ["python@3.9"]).
  { intros Hin. apply list_elem_of_singleton in Hin. discriminate. }
  split; [exact Hfresh|].
  destruct (extractPythonVersions_spec mockPackages) as (_ & _ & _ & Hfirst & _).
  apply (Hfirst ["python@3.9"] "python@3.8" ["python@3.9"; "python@3.7"]).
  - reflexivity.
  - exact Hfresh.
Defined.

Example extractPythonVersions_test :
  extractPythonVersions mockPackages = ["python@3.9"; "python@3.8"; "python@3.7"].
Proof. vm_compute. reflexivity. Qed.

(** ** [replace]: properties *)

Lemma replace_index_Some (pattern replacement s : string) (n : nat) :
  String.index 0 pattern s = Some n ->
  replace s pattern replacement
  = String.substring 0 n s +:+ replacement
      +:+ dropChars (n + String.length pattern) s.
Proof.
  revert n. induction s as [|c s IH]; intros n Hidx.
  - simpl in Hidx. destruct pattern; [|discriminate].
    injection Hidx as <-. reflexivity.
  - cbn [String.index] in Hidx. cbn [replace].
    destruct (String.prefix pattern (String c s)) eqn:Hpre.
    + injection Hidx as <-. reflexivity.
    + destruct (String.index 0 pattern s) as [n0|] eqn:Hrec; [|discriminate].
      injection Hidx as <-. rewrite (IH n0 eq_refl). reflexivity.
Qed.

Lemma replace_index_None (pattern replacement s : string) :
  String.index 0 pattern s = None ->
  replace s pattern replacement = s.
Proof.
  induction s as [|c s IH]; intros Hidx.
  - simpl in Hidx. destruct pattern; [discriminate|]. reflexivity.
  - cbn [String.index] in Hidx. cbn [replace].
    destruct (String.prefix pattern (String c s)) eqn:Hpre; [discriminate|].
    destruct (String.index 0 pattern s) as [n0|] eqn:Hrec; [discriminate|].
    now rewrite IH.
Qed.

Lemma replace_python_prefix (rest : string) :
  replace ("python@" +:+ rest) "python@" EmptyString = rest.
Proof. destruct rest; vm_compute; reflexivity. Qed.

(** ** The monad: traces of the primitive steps *)

Lemma shellCalls_app (tr1 tr2 : list Event) :
  shellCalls (tr1 ++ tr2) = shellCalls tr1 ++ shellCalls tr2.
Proof.
  induction tr1 as [|[c|m|p d] tr1 IH]; simpl; [reflexivity| |assumption|assumption].
  now rewrite IH.
Qed.

Lemma logMessages_app (tr1 tr2 : list Event) :
  logMessages (tr1 ++ tr2) = logMessages tr1 ++ logMessages tr2.
Proof.
  induction tr1 as [|[c|m|p d] tr1 IH]; simpl; [reflexivity|assumption| |assumption].
  now rewrite IH.
Qed.

Section StepFacts.

Context {W : Type} (env : Env W).

Lemma shell_trace (c : ShellCall) (st : State W) :
  trace (snd (shell env c st)) = trace st ++ [EvShell c].
Proof.
  unfold shell. destruct (sh_run env c (world st)) as [[exitCode stdout] w'].
  destruct (sh_rejects env c exitCode); reflexivity.
Qed.

(** A command whose rejection is ruled out resolves with its output. *)
Lemma shell_resolves (c : ShellCall) (st : State W) :
  (forall exitCode, sh_rejects env c exitCode = false) ->
  exists stdout w',
    shell env c st
    = (Ok stdout,
       {| world := w'; files := files st; trace := trace st ++ [EvShell c] |}).
Proof.
  intros Hnever. unfold shell.
  destruct (sh_run env c (world st)) as [[exitCode stdout] w'].
  rewrite Hnever. eauto.
Qed.

Lemma awaitAll_calls (calls : list ShellCall) (st : State W) :
  shellCalls (trace (snd (awaitAll env calls st)))
  = shellCalls (trace st) ++ calls.
Proof.
  revert st. induction calls as [|c calls IH]; intros st; simpl.
  - now rewrite app_nil_r.
  - pose proof (shell_trace c st) as Htr.
    destruct (shell env c st) as [[out|e] st'] eqn:Hsh; simpl in Htr |- *;
      rewrite IH, Htr, shellCalls_app, <- app_assoc; reflexivity.
Qed.

Lemma installPyenvVersions_calls (pythonVersions : list string) (st : State W) :
  shellCalls (trace (snd (installPyenvVersions env pythonVersions st)))
  = shellCalls (trace st) ++ map pyenvInstallFor pythonVersions.
Proof.
  unfold installPyenvVersions, bind.
  pose proof (awaitAll_calls (map pyenvInstallFor pythonVersions) st) as Hall.
  destruct (awaitAll env (map pyenvInstallFor pythonVersions) st)
    as [[u|e] st'] eqn:Hrun; simpl in Hall |- *; [|assumption].
  now rewrite shellCalls_app, Hall, app_nil_r.
Qed.

End StepFacts.

(** C9: the version handed to [pyenv install -s] is the input with its
    first occurrence of [python@] removed, wherever that occurrence starts:
    for an input that begins with [python@] it is the rest of the input,
    and for [my-python@3.9] it is [my-3.9]. *)
Theorem installPyenvVersions_bare_version :
  (forall W (env : Env W) (pythonVersions : list string) (st : State W),
      shellCalls (trace (snd (installPyenvVersions env pythonVersions st)))
      = shellCalls (trace st)
        ++ map (fun version =>
                  sh ["pyenv install -s "; EmptyString]
                     [replace version "python@" EmptyString])
               pythonVersions)
  /\ (forall version n,
        String.index 0 "python@" version = Some n ->
        replace version "python@" EmptyString
        = String.substring 0 n version +:+ dropChars (n + 7) version)
  /\ (forall version,
        String.index 0 "python@" version = None ->
        replace version "python@" EmptyString = version)
  /\ (forall rest,
        replace ("python@" +:+ rest) "python@" EmptyString = rest)
  /\ replace "my-python@3.9" "python@" EmptyString = "my-3.9".
Proof.
  split; [intros W env pythonVersions st; apply installPyenvVersions_calls|].
  split.
  { intros version n Hidx.
    now rewrite (replace_index_Some _ EmptyString _ _ Hidx). }
  split; [intros version; apply replace_index_None|].
  split; [apply replace_python_prefix|reflexivity].
Qed.

Lemma installPyenvVersions_bare_version_witness :
  String.index 0 "python@" "my-python@3.9" = Some 3%nat
  /\ replace "my-python@3.9" "python@" EmptyString
     = String.substring 0 3 "my-python@3.9" +:+ dropChars (3 + 7) "my-python@3.9".
Proof.
  split; [reflexivity|].
  destruct installPyenvVersions_bare_version as (_ & Hfirst & _).
  apply Hfirst. reflexivity.
Defined.

(** ** [split] and string concatenation: properties *)

Lemma str_app_cons (c : ascii) (a b : string) :
  String c a +:+ b = String c (a +:+ b).
Proof. reflexivity. Qed.

Lemma str_app_nil_l (b : string) : EmptyString +:+ b = b.
Proof. reflexivity. Qed.

Lemma str_app_assoc (a b c : string) : (a +:+ b) +:+ c = a +:+ (b +:+ c).
Proof.
  induction a as [|x a IH]; [reflexivity|].
  rewrite !str_app_cons. now f_equal.
Qed.

Lemma str_app_length (a b : string) :
  String.length (a +:+ b) = (String.length a + String.length b)%nat.
Proof.
  induction a as [|x a IH]; [reflexivity|].
  rewrite str_app_cons. simpl. now f_equal.
Qed.

Lemma split_inv (sep : ascii) (s : string) :
  exists h t, split sep s = h :: t.
Proof.
  destruct s as [|c s]; simpl; [eauto|].
  destruct (Ascii.eqb c sep); [eauto|].
  destruct (split sep s); eauto.
Qed.

Lemma split_free (sep : ascii) (s : string) :
  freeOf sep s = true -> split sep s = [s].
Proof.
  induction s as [|c s IH]; simpl; [reflexivity|].
  intros [Hc Hs]%andb_prop. apply negb_true_iff in Hc. rewrite Hc.
  now rewrite (IH Hs).
Qed.

Lemma split_app (sep : ascii) (a b : string) :
  split sep (a +:+ String sep b) = split sep a ++ split sep b.
Proof.
  induction a as [|c a IH].
  - rewrite str_app_nil_l. simpl. now rewrite Ascii.eqb_refl.
  - rewrite str_app_cons. simpl. rewrite IH.
    destruct (Ascii.eqb c sep); [reflexivity|].
    destruct (split_inv sep a) as (h & t & ->). reflexivity.
Qed.

Lemma concat_split (sep : ascii) (s : string) :
  String.concat (String sep EmptyString) (split sep s) = s.
Proof.
  induction s as [|c s IH]; [reflexivity|]. simpl.
  destruct (Ascii.eqb_spec c sep) as [->|Hne].
  - destruct (split_inv sep s) as (h & t & Hsplit). rewrite Hsplit in IH |- *.
    change (EmptyString +:+ String sep EmptyString
              +:+ String.concat (String sep EmptyString) (h :: t)
            = String sep s).
    now rewrite IH.
  - destruct (split_inv sep s) as (h & t & Hsplit). rewrite Hsplit in IH |- *.
    destruct t as [|h' t].
    + simpl in IH |- *. now rewrite IH.
    + change (String c h +:+ String sep EmptyString
                +:+ String.concat (String sep EmptyString) (h' :: t)
              = String c s).
      rewrite str_app_cons. f_equal. exact IH.
Qed.

Lemma split_members_free (sep : ascii) (s : string) :
  Forall (fun seg => freeOf sep seg = true) (split sep s).
Proof.
  induction s as [|c s IH]; simpl.
  - repeat constructor.
  - destruct (Ascii.eqb c sep) eqn:Hc.
    + constructor; [reflexivity|assumption].
    + destruct (split sep s) as [|h t]; [repeat constructor; simpl; now rewrite Hc|].
      inversion IH as [|? ? Hh Ht]; subst. constructor; [|assumption].
      simpl. now rewrite Hc, Hh.
Qed.

Lemma freeOf_app (sep : ascii) (a b : string) :
  freeOf sep (a +:+ b) = freeOf sep a && freeOf sep b.
Proof.
  induction a as [|c a IH]; [reflexivity|].
  rewrite str_app_cons. simpl. rewrite IH. now rewrite andb_assoc.
Qed.

(** ** Paths: properties *)

Lemma basename_free (p : string) : freeOf SLASH (Path.basename p) = true.
Proof.
  unfold Path.basename, Path.segments.
  pose proof (split_members_free SLASH p) as Hall.
  induction (split SLASH p) as [|seg segs IH]; [reflexivity|].
  inversion Hall as [|? ? Hseg Hsegs]; subst. simpl.
  destruct (truthy seg); [|now apply IH].
  simpl. destruct (List.filter truthy segs) eqn:Hf; [assumption|].
  apply IH. assumption.
Qed.

Lemma lastChar_app (a : string) (c : ascii) (b : string) :
  Path.lastChar (a +:+ String c b) = Path.lastChar (String c b).
Proof.
  induction a as [|x a IH]; [reflexivity|].
  rewrite str_app_cons.
  change (Path.lastChar (String x (a +:+ String c b)))
    with (match a +:+ String c b with
          | EmptyString => Some x
          | String _ _ => Path.lastChar (a +:+ String c b)
          end).
  destruct (a +:+ String c b) eqn:Happ; [|exact IH].
  destruct a; discriminate.
Qed.

Lemma normalize_plain (allowAboveRoot : bool) (segs acc : list string) :
  forallb plainSegment segs = true ->
  fold_left (Path.normalizeStep allowAboveRoot) segs acc = acc ++ segs.
Proof.
  revert acc. induction segs as [|seg segs IH]; intros acc Hall; simpl.
  - now rewrite app_nil_r.
  - simpl in Hall. apply andb_prop in Hall as [Hseg Hsegs].
    rewrite (IH _ Hsegs). unfold Path.normalizeStep.
    unfold plainSegment in Hseg. apply negb_true_iff in Hseg.
    apply orb_false_elim in Hseg as [Hseg Hdd].
    rewrite Hseg, Hdd. now rewrite <- app_assoc.
Qed.

Lemma normalize_clean (p : string) (segs : list string) :
  Path.trailingSeparator p = false ->
  forallb plainSegment segs = true ->
  (Path.segments p = EmptyString :: segs /\ segs <> []) \/ Path.segments p = segs ->
  Path.normalize p = p.
Proof.
  intros Htrail Hplain Hshape.
  pose proof (concat_split SLASH p) as Hjoin. fold (Path.segments p) in Hjoin.
  change (String SLASH EmptyString) with "/" in Hjoin.
  destruct p as [|c s].
  { exfalso. destruct Hshape as [[Hsegs Hne]|Hsegs].
    - inversion Hsegs. congruence.
    - rewrite <- Hsegs in Hplain. discriminate. }
  remember (String c s) as p eqn:Hp.
  assert (Hnorm : Path.normalize p
    = let body := Path.normalizeString p (negb (Path.isAbsolute p)) in
      match body with
      | EmptyString =>
          if Path.isAbsolute p then "/"
          else if Path.trailingSeparator p then "./" else "."
      | String _ _ =>
          let body' := if Path.trailingSeparator p then body +:+ "/" else body in
          if Path.isAbsolute p then "/" +:+ body' else body'
      end).
  { subst p. reflexivity. }
  rewrite Hnorm. cbv zeta. rewrite Htrail. clear Hnorm.
  destruct Hshape as [[Hsegs Hne]|Hsegs].
  - assert (Habs : Path.isAbsolute p = true).
    { subst p. unfold Path.segments in Hsegs. simpl in Hsegs |- *.
      destruct (Ascii.eqb c SLASH); [reflexivity|].
      destruct (split SLASH s); discriminate. }
    rewrite Habs. unfold Path.normalizeString. rewrite Hsegs. simpl.
    rewrite (normalize_plain _ _ _ Hplain). simpl.
    rewrite Hsegs in Hjoin. destruct segs as [|seg segs]; [congruence|].
    change (EmptyString +:+ "/" +:+ String.concat "/" (seg :: segs) = p) in Hjoin.
    rewrite str_app_nil_l in Hjoin.
    destruct (String.concat "/" (seg :: segs)) as [|b body] eqn:Hbody.
    + rewrite <- Hjoin in Htrail. discriminate.
    + exact Hjoin.
  - assert (Habs : Path.isAbsolute p = false).
    { subst p. unfold Path.segments in Hsegs. simpl in Hsegs |- *.
      destruct (Ascii.eqb c SLASH); [|reflexivity].
      rewrite <- Hsegs in Hplain. discriminate. }
    rewrite Habs. unfold Path.normalizeString. rewrite Hsegs. simpl.
    rewrite (normalize_plain _ _ _ Hplain). simpl.
    rewrite Hsegs in Hjoin. rewrite Hjoin. subst p. reflexivity.
Qed.

Lemma brew_suffix_plain (versionName : string) :
  plainSegment (versionName +:+ "-brew") = true.
Proof.
  unfold plainSegment. apply negb_true_iff.
  pose proof (str_app_length versionName "-brew") as Hlen. simpl in Hlen.
  repeat (apply orb_false_intro); apply String.eqb_neq; intros Heq;
    rewrite Heq in Hlen; simpl in Hlen; lia.
Qed.

Lemma cleanRoot_nonempty (pyenvRoot : string) :
  cleanRoot pyenvRoot = true -> truthy pyenvRoot = true.
Proof. destruct pyenvRoot; [discriminate|reflexivity]. Qed.

Lemma join_cleanRoot (pyenvRoot versionName : string) :
  cleanRoot pyenvRoot = true ->
  freeOf SLASH versionName = true ->
  Path.join [pyenvRoot; "versions"; versionName +:+ "-brew"]
  = pyenvRoot +:+ "/versions/" +:+ versionName +:+ "-brew".
Proof.
  intros Hclean Hfree.
  set (x := versionName +:+ "-brew").
  assert (Hx : plainSegment x = true) by apply brew_suffix_plain.
  assert (Hxfree : freeOf SLASH x = true).
  { unfold x. rewrite freeOf_app, Hfree. reflexivity. }
  assert (Hxne : truthy x = true).
  { destruct x; [discriminate|reflexivity]. }
  unfold Path.join. simpl List.filter.
  rewrite (cleanRoot_nonempty _ Hclean), Hxne.
  change (String.concat "/" [pyenvRoot; "versions"; x])
    with (pyenvRoot +:+ String SLASH ("versions" +:+ String SLASH x)).
  set (p := pyenvRoot +:+ String SLASH ("versions" +:+ String SLASH x)).
  assert (Hsegs : Path.segments p = Path.segments pyenvRoot ++ ["versions"; x]).
  { unfold p, Path.segments. rewrite split_app. f_equal.
    rewrite (split_app SLASH "versions" x), (split_free _ _ Hxfree).
    reflexivity. }
  assert (Htrail : Path.trailingSeparator p = false).
  { unfold Path.trailingSeparator, p, x.
    change (pyenvRoot +:+ String SLASH ("versions" +:+ String SLASH (versionName +:+ "-brew")))
      with (pyenvRoot +:+ ("/versions/" +:+ (versionName +:+ "-brew"))).
    rewrite <- !str_app_assoc. change "-brew" with (String "-"%char "brew").
    rewrite lastChar_app. reflexivity. }
  change (Path.normalize p = pyenvRoot +:+ ("/versions/" +:+ x)).
  assert (Hp : p = pyenvRoot +:+ ("/versions/" +:+ x)) by reflexivity.
  rewrite <- Hp. clear Hp.
  unfold cleanRoot in Hclean.
  destruct (Path.segments pyenvRoot) as [|seg segs] eqn:Hroot.
  { destruct (split_inv SLASH pyenvRoot) as (h & t & Hsplit).
    unfold Path.segments in Hroot. congruence. }
  destruct seg as [|c seg].
  - destruct segs as [|seg' segs]; [discriminate|].
    apply (normalize_clean p ((seg' :: segs) ++ ["versions"; x])); [assumption| |].
    + rewrite forallb_app, Hclean. simpl. now rewrite Hx.
    + left. split; [exact Hsegs|discriminate].
  - apply (normalize_clean p ((String c seg :: segs) ++ ["versions"; x])); [assumption| |].
    + rewrite forallb_app, Hclean. simpl. now rewrite Hx.
    + right. exact Hsegs.
Qed.

(** ** Symlink command builder: properties *)

Lemma symlinkCommand_cleanRoot (pyenvRoot versionPath : string) :
  cleanRoot pyenvRoot = true ->
  symlinkCommand pyenvRoot versionPath = literalSymlinkCommand pyenvRoot versionPath.
Proof.
  intros Hclean. unfold symlinkCommand, literalSymlinkCommand. cbv zeta.
  now rewrite (join_cleanRoot _ _ Hclean (basename_free versionPath)).
Qed.

(** C5, as amended: there is one command per input path, in input order
    and without deduplication, and none for the empty list; the command
    for [versionPath] is [ln -s -f], the path, and the normalized join of
    the root, [versions] and the base name followed by [-brew]; that join
    is the literal text [<pyenvRoot>/versions/<basename>-brew] whenever the
    root, absolute or relative, is made of ordinary segments only: no
    empty, [.] or [..] segment and no separator at its end. *)
Theorem generateSymlinkCommands_spec (pythonDirs : list string) (pyenvRoot : string) :
  generateSymlinkCommands [] pyenvRoot = []
  /\ length (generateSymlinkCommands pythonDirs pyenvRoot) = length pythonDirs
  /\ (forall (i : nat) versionPath,
        pythonDirs !! i = Some versionPath ->
        generateSymlinkCommands pythonDirs pyenvRoot !! i
        = Some ("ln -s -f " +:+ versionPath +:+ " " +:+
                Path.join [pyenvRoot; "versions";
                           Path.basename versionPath +:+ "-brew"]))
  /\ (cleanRoot pyenvRoot = true ->
      generateSymlinkCommands pythonDirs pyenvRoot
      = map (fun versionPath =>
               "ln -s -f " +:+ versionPath +:+ " " +:+
               pyenvRoot +:+ "/versions/" +:+ Path.basename versionPath +:+ "-brew")
            pythonDirs).
Proof.
  split; [reflexivity|].
  split; [apply length_map|].
  split.
  { intros i versionPath Hi. unfold generateSymlinkCommands.
    rewrite list_lookup_fmap, Hi. reflexivity. }
  intros Hclean. unfold generateSymlinkCommands. apply map_ext.
  intros versionPath. apply (symlinkCommand_cleanRoot _ _ Hclean).
Qed.

Lemma generateSymlinkCommands_spec_witness :
  cleanRoot "/Users/test/.pyenv" = true
  /\ generateSymlinkCommands
       ["/usr/local/Cellar/python@3.9/3.9.0"; "/usr/local/Cellar/python@3.8/3.8.5"]
       "/Users/test/.pyenv"
     = map (fun versionPath =>
              "ln -s -f " +:+ versionPath +:+ " " +:+
              "/Users/test/.pyenv" +:+ "/versions/"
                +:+ Path.basename versionPath +:+ "-brew")
         ["/usr/local/Cellar/python@3.9/3.9.0"; "/usr/local/Cellar/python@3.8/3.8.5"].
Proof.
  split; [reflexivity|].
  destruct (generateSymlinkCommands_spec
              ["/usr/local/Cellar/python@3.9/3.9.0"; "/usr/local/Cellar/python@3.8/3.8.5"]
              "/Users/test/.pyenv") as (_ & _ & _ & Hliteral).
  apply Hliteral. reflexivity.
Defined.

(** With a root that ends in a separator the join drops the doubled
    separator, so the command is not the literal text of the claim. *)
Lemma generateSymlinkCommands_literal_counterexample :
  generateSymlinkCommands ["/usr/local/Cellar/python@3.9/3.9.0"] "/Users/test/.pyenv/"
  = ["ln -s -f /usr/local/Cellar/python@3.9/3.9.0 /Users/test/.pyenv/versions/3.9.0-brew"]
  /\ literalSymlinkCommand "/Users/test/.pyenv/" "/usr/local/Cellar/python@3.9/3.9.0"
     = "ln -s -f /usr/local/Cellar/python@3.9/3.9.0 /Users/test/.pyenv//versions/3.9.0-brew"
  /\ ~ (forall pythonDirs pyenvRoot,
          generateSymlinkCommands pythonDirs pyenvRoot
          = map (literalSymlinkCommand pyenvRoot) pythonDirs).
Proof.
  split; [vm_compute; reflexivity|].
  split; [vm_compute; reflexivity|].
  intros Hall.
  specialize (Hall ["/usr/local/Cellar/python@3.9/3.9.0"] "/Users/test/.pyenv/").
  vm_compute in Hall. discriminate Hall.
Qed.

Example generateSymlinkCommands_test :
  generateSymlinkCommands
    ["/usr/local/Cellar/python@3.9/3.9.0"; "/usr/local/Cellar/python@3.8/3.8.5"]
    "/Users/test/.pyenv"
  = ["ln -s -f /usr/local/Cellar/python@3.9/3.9.0 /Users/test/.pyenv/versions/3.9.0-brew";
     "ln -s -f /usr/local/Cellar/python@3.8/3.8.5 /Users/test/.pyenv/versions/3.8.5-brew"].
Proof. vm_compute. reflexivity. Qed.

(** ** Loops that run a command and then log *)

Section LoopFacts.

Context {W : Type} (env : Env W) {A : Type}.
Context (cmd : A -> ShellCall) (msg : A -> string).

(** A loop whose body awaits a command and then logs goes through its
    list in order; it ends after the last element, or at the first command
    that is rejected, before the message of that element. *)
Lemma shellLogLoop_trace (xs : list A) (st : State W) :
  match forOf xs (fun x => step shell env (cmd x) in loggerInfo (msg x)) st with
  | (Ok _, st') =>
      resolveAll env (map cmd xs) (world st) = Some (world st')
      /\ files st' = files st
      /\ trace st'
         = trace st ++ flat_map (fun x => [EvShell (cmd x); EvLog (msg x)]) xs
  | (Throw e, st') =>
      resolveAll env (map cmd xs) (world st) = None
      /\ exists done failed rest exitCode,
           xs = done ++ failed :: rest
           /\ e = ShellError exitCode
           /\ sh_rejects env (cmd failed) exitCode = true
           /\ files st' = files st
           /\ trace st'
              = trace st
                  ++ flat_map (fun x => [EvShell (cmd x); EvLog (msg x)]) done
                  ++ [EvShell (cmd failed)]
  end.
Proof.
  revert st. induction xs as [|x rest IH]; intros st.
  - simpl. now rewrite app_nil_r.
  - cbn [forOf map resolveAll]. unfold bind at 1 2. unfold shell at 1.
    destruct (sh_run env (cmd x) (world st)) as [[exitCode stdout] w1].
    cbn [fst].
    destruct (sh_rejects env (cmd x) exitCode) eqn:Hrej.
    + split; [reflexivity|]. exists [], x, rest, exitCode.
      repeat split; assumption.
    + unfold loggerInfo at 1, emit. cbn [world files trace].
      specialize (IH {| world := w1; files := files st;
                        trace := (trace st ++ [EvShell (cmd x)])
                                 ++ [EvLog (msg x)] |}).
      destruct (forOf rest _ _) as [[u|e] st']; cbn [world files trace] in IH.
      * destruct IH as (Hw & Hf & Ht).
        split; [exact Hw|]. split; [exact Hf|].
        rewrite Ht. simpl. rewrite <- !app_assoc. reflexivity.
      * destruct IH as (Hw & done & failed & rest' & code & Hsplit & He
                        & Hrej' & Hf & Ht).
        split; [exact Hw|].
        exists (x :: done), failed, rest', code.
        split; [now rewrite Hsplit|]. split; [exact He|].
        split; [exact Hrej'|]. split; [exact Hf|].
        rewrite Ht. simpl. rewrite <- !app_assoc. reflexivity.
Qed.

End LoopFacts.

Lemma shellCalls_loop {A : Type} (cmd : A -> ShellCall) (msg : A -> string)
    (xs : list A) :
  shellCalls (flat_map (fun x => [EvShell (cmd x); EvLog (msg x)]) xs)
  = map cmd xs.
Proof. induction xs as [|x xs IH]; simpl; [reflexivity|now f_equal]. Qed.

Lemma logMessages_loop {A : Type} (cmd : A -> ShellCall) (msg : A -> string)
    (xs : list A) :
  logMessages (flat_map (fun x => [EvShell (cmd x); EvLog (msg x)]) xs)
  = map msg xs.
Proof. induction xs as [|x xs IH]; simpl; [reflexivity|now f_equal]. Qed.

Lemma resolveAll_app {W : Type} (env : Env W) (calls1 calls2 : list ShellCall)
    (w : W) :
  resolveAll env (calls1 ++ calls2) w
  = match resolveAll env calls1 w with
    | Some w1 => resolveAll env calls2 w1
    | None => None
    end.
Proof.
  revert w. induction calls1 as [|c calls1 IH]; intros w; [reflexivity|].
  cbn [app resolveAll]. destruct (sh_run env c w) as [result w1].
  destruct (sh_rejects env c (fst result)); [reflexivity|apply IH].
Qed.

(** ** Reinstall step: properties *)

Section ReinstallFacts.

Context {W : Type} (env : Env W).

Lemma brewReinstall_discardsStderr (pkgName : string) :
  discardsStderr (brewReinstall pkgName) = true.
Proof. reflexivity. Qed.

Lemma reinstallBrewPackages_cons (pkg : Package) (rest : list Package)
    (st : State W) :
  reinstallBrewPackages env (pkg :: rest) st
  = match shell env (brewReinstall (pkg_name pkg)) st with
    | (Ok _, st1) =>
        reinstallBrewPackages env rest
          {| world := world st1; files := files st1;
             trace := trace st1
                      ++ [EvLog ("Reinstalled Brew package: " +:+ pkg_name pkg)] |}
    | (Throw e, st1) => (Throw e, st1)
    end.
Proof.
  unfold reinstallBrewPackages. simpl. unfold bind.
  destruct (shell env (brewReinstall (pkg_name pkg)) st) as [[out|e] st1];
    reflexivity.
Qed.

(** Without a tolerant gateway the loop has nothing of its own to go on
    with: a rejected command ends it, and neither the message for that
    package nor any later command follows. *)
Lemma reinstallBrewPackages_stops_on_rejection (pkg : Package)
    (rest : list Package) (st : State W) (exitCode : Z) (stdout : string) (w1 : W) :
  sh_run env (brewReinstall (pkg_name pkg)) (world st) = (exitCode, stdout, w1) ->
  sh_rejects env (brewReinstall (pkg_name pkg)) exitCode = true ->
  reinstallBrewPackages env (pkg :: rest) st
  = (Throw (ShellError exitCode),
     {| world := w1; files := files st;
        trace := trace st ++ [EvShell (brewReinstall (pkg_name pkg))] |}).
Proof.
  intros Hrun Hrej. rewrite reinstallBrewPackages_cons.
  unfold shell. rewrite Hrun, Hrej. reflexivity.
Qed.

End ReinstallFacts.

Lemma reinstallEvents_calls (brewPackages : list Package) :
  shellCalls (reinstallEvents brewPackages)
  = map (fun pkg => brewReinstall (pkg_name pkg)) brewPackages.
Proof.
  induction brewPackages as [|pkg rest IH]; simpl; [reflexivity|now f_equal].
Qed.

Lemma reinstallEvents_messages (brewPackages : list Package) :
  logMessages (reinstallEvents brewPackages)
  = map (fun pkg => "Reinstalled Brew package: " +:+ pkg_name pkg) brewPackages.
Proof.
  induction brewPackages as [|pkg rest IH]; simpl; [reflexivity|now f_equal].
Qed.

(** The loop goes through the packages in order and ends either after the
    last one or at the first command that the gateway rejects. *)
Lemma reinstallBrewPackages_trace {W : Type} (env : Env W)
    (brewPackages : list Package) (st : State W) :
  match reinstallBrewPackages env brewPackages st with
  | (Ok _, st') =>
      files st' = files st
      /\ trace st' = trace st ++ reinstallEvents brewPackages
  | (Throw e, st') =>
      exists done failed rest exitCode,
        brewPackages = done ++ failed :: rest
        /\ e = ShellError exitCode
        /\ sh_rejects env (brewReinstall (pkg_name failed)) exitCode = true
        /\ trace st'
           = trace st ++ reinstallEvents done
               ++ [EvShell (brewReinstall (pkg_name failed))]
  end.
Proof.
  revert st. induction brewPackages as [|pkg rest IH]; intros st.
  - simpl. unfold reinstallEvents. simpl. now rewrite app_nil_r.
  - rewrite reinstallBrewPackages_cons. unfold shell.
    destruct (sh_run env (brewReinstall (pkg_name pkg)) (world st))
      as [[exitCode stdout] w1].
    destruct (sh_rejects env (brewReinstall (pkg_name pkg)) exitCode) eqn:Hrej.
    + exists [], pkg, rest, exitCode. repeat split; assumption.
    + cbn [world files trace].
      specialize (IH {| world := w1; files := files st;
                        trace := (trace st ++ [EvShell (brewReinstall (pkg_name pkg))])
                                 ++ [EvLog ("Reinstalled Brew package: " +:+ pkg_name pkg)] |}).
      destruct (reinstallBrewPackages env rest _) as [[u|e] st'];
        cbn [world files trace] in IH.
      * destruct IH as (Hf & Ht). split; [exact Hf|].
        rewrite Ht, <- !app_assoc. reflexivity.
      * destruct IH as (done & failed & rest' & code & Hsplit & He & Hrej' & Ht).
        exists (pkg :: done), failed, rest', code.
        split; [now rewrite Hsplit|]. split; [exact He|]. split; [exact Hrej'|].
        rewrite Ht, <- !app_assoc. reflexivity.
Qed.

(** The loop completes exactly when every reinstall command resolves. *)
Lemma reinstallBrewPackages_resolves {W : Type} (env : Env W)
    (brewPackages : list Package) (st : State W) :
  fst (reinstallBrewPackages env brewPackages st) = Ok tt
  <-> is_Some (resolveAll env
                 (map (fun pkg => brewReinstall (pkg_name pkg)) brewPackages)
                 (world st)).
Proof.
  pose proof (shellLogLoop_trace env
                (fun pkg => brewReinstall (pkg_name pkg))
                (fun pkg => "Reinstalled Brew package: " +:+ pkg_name pkg)
                brewPackages st) as Hloop.
  cbv beta in Hloop. unfold reinstallBrewPackages.
  destruct (forOf brewPackages _ st) as [[[]|e] st']; cbn [fst].
  - destruct Hloop as (Hsome & _). rewrite Hsome. split; eauto.
  - destruct Hloop as (Hnone & _). rewrite Hnone.
    split; [discriminate|]. intros [w Hw]. discriminate.
Qed.

(** C1, as amended: the reinstall loop has no handling of failures of its
    own.  It issues the reinstall command and then logs the success
    message, package after package in input order, and completes exactly
    when every reinstall command resolves; the first command that the
    gateway rejects is thrown, with no message for that package and no
    command for the later ones.  Only when the gateway does not signal a
    failure for a command whose stderr goes to the null sink does the loop
    reach the end of the list whatever the exit statuses are, with one
    command and one success message per package. *)
Theorem reinstallBrewPackages_until_rejection {W : Type} (env : Env W)
    (brewPackages : list Package) (st : State W) :
  let result := reinstallBrewPackages env brewPackages st in
  (fst result = Ok tt
   <-> is_Some (resolveAll env
                  (map (fun pkg =>
                          {| sh_strings := ["brew reinstall "; " 2>/dev/null"];
                             sh_values := [pkg_name pkg]; sh_quiet := true |})
                       brewPackages)
                  (world st)))
  /\ (resolveAll env
        (map (fun pkg => brewReinstall (pkg_name pkg)) brewPackages) (world st)
      = None ->
      exists done failed rest exitCode,
        brewPackages = done ++ failed :: rest
        /\ sh_rejects env (brewReinstall (pkg_name failed)) exitCode = true
        /\ fst result = Throw (ShellError exitCode)
        /\ trace (snd result)
           = trace st ++ reinstallEvents done
               ++ [EvShell (brewReinstall (pkg_name failed))])
  /\ ((forall c exitCode,
          discardsStderr c = true -> sh_rejects env c exitCode = false) ->
      fst result = Ok tt
      /\ trace (snd result) = trace st ++ reinstallEvents brewPackages)
  /\ (forall e,
        fst result = Throw e ->
        exists done failed rest exitCode,
          brewPackages = done ++ failed :: rest
          /\ e = ShellError exitCode
          /\ sh_rejects env (brewReinstall (pkg_name failed)) exitCode = true
          /\ trace (snd result)
             = trace st ++ reinstallEvents done
                 ++ [EvShell (brewReinstall (pkg_name failed))])
  /\ (fst result = Ok tt ->
      trace (snd result) = trace st ++ reinstallEvents brewPackages)
  /\ shellCalls (reinstallEvents brewPackages)
     = map (fun pkg =>
              {| sh_strings := ["brew reinstall "; " 2>/dev/null"];
                 sh_values := [pkg_name pkg]; sh_quiet := true |})
           brewPackages
  /\ logMessages (reinstallEvents brewPackages)
     = map (fun pkg => "Reinstalled Brew package: " +:+ pkg_name pkg)
           brewPackages.
Proof.
  intros result.
  split; [apply reinstallBrewPackages_resolves|].
  pose proof (reinstallBrewPackages_resolves env brewPackages st) as Hiff.
  pose proof (reinstallBrewPackages_trace env brewPackages st) as Hrun.
  fold result in Hrun, Hiff.
  destruct result as [[[]|e] st'] eqn:Hres; cbn [fst snd] in Hiff |- *.
  - split.
    { intros Hnone. destruct (proj1 Hiff eq_refl) as [w Hw]. congruence. }
    destruct Hrun as (_ & Ht). split; [intros _; split; [reflexivity|exact Ht]|].
    split; [intros e He; discriminate|]. split; [intros _; exact Ht|].
    split; [apply reinstallEvents_calls|apply reinstallEvents_messages].
  - split.
    { intros _.
      destruct Hrun as (done & failed & rest & code & Hsplit & -> & Hrej & Ht).
      exists done, failed, rest, code. auto. }
    split.
    + intros Htolerant. exfalso.
      destruct Hrun as (done & failed & rest & code & _ & _ & Hrej & _).
      rewrite (Htolerant _ code (brewReinstall_discardsStderr _)) in Hrej.
      discriminate.
    + split.
      * intros e' He'. injection He' as <-. exact Hrun.
      * split; [discriminate|].
        split; [apply reinstallEvents_calls|apply reinstallEvents_messages].
Qed.

Lemma reinstallBrewPackages_until_rejection_witness :
  (forall c exitCode,
      discardsStderr c = true -> sh_rejects failingEnv c exitCode = false)
  /\ fst (sh_run failingEnv (brewReinstall "certbot") tt) = (1, EmptyString)
  /\ fst (reinstallBrewPackages failingEnv mockPackages (initialState tt)) = Ok tt
  /\ trace (snd (reinstallBrewPackages failingEnv mockPackages (initialState tt)))
     = [] ++ reinstallEvents mockPackages
  /\ fst (reinstallBrewPackages bunFailingEnv mockPackages (initialState tt))
     = Throw (ShellError 1)
  /\ (exists done failed rest exitCode,
       mockPackages = done ++ failed :: rest
       /\ ShellError 1 = ShellError exitCode
       /\ sh_rejects bunFailingEnv (brewReinstall (pkg_name failed)) exitCode = true
       /\ trace (snd (reinstallBrewPackages bunFailingEnv mockPackages
                        (initialState tt)))
          = [] ++ reinstallEvents done
               ++ [EvShell (brewReinstall (pkg_name failed))])
  /\ resolveAll bunFailingEnv
       (map (fun pkg => brewReinstall (pkg_name pkg)) mockPackages) tt = None
  /\ exists done failed rest exitCode,
       mockPackages = done ++ failed :: rest
       /\ sh_rejects bunFailingEnv (brewReinstall (pkg_name failed)) exitCode = true
       /\ fst (reinstallBrewPackages bunFailingEnv mockPackages (initialState tt))
          = Throw (ShellError exitCode)
       /\ trace (snd (reinstallBrewPackages bunFailingEnv mockPackages
                        (initialState tt)))
          = [] ++ reinstallEvents done
               ++ [EvShell (brewReinstall (pkg_name failed))].
Proof.
  assert (Htolerant : forall c exitCode,
             discardsStderr c = true -> sh_rejects failingEnv c exitCode = false).
  { intros c exitCode Hc. simpl. unfold specGatewayRejects. rewrite Hc.
    apply andb_false_r. }
  assert (Hthrown : fst (reinstallBrewPackages bunFailingEnv mockPackages
                           (initialState tt)) = Throw (ShellError 1))
    by reflexivity.
  split; [exact Htolerant|]. split; [reflexivity|].
  destruct (reinstallBrewPackages_until_rejection failingEnv mockPackages
              (initialState tt)) as (_ & _ & Hall & _).
  destruct (reinstallBrewPackages_until_rejection bunFailingEnv mockPackages
              (initialState tt)) as (_ & Hrejected & _ & Hstop & _).
  split; [exact (proj1 (Hall Htolerant))|].
  split; [exact (proj2 (Hall Htolerant))|].
  split; [exact Hthrown|]. split; [exact (Hstop (ShellError 1) Hthrown)|].
  split; [reflexivity|]. exact (Hrejected eq_refl).
Defined.

(** Under the default of [bun] a reinstall command that exits with status
    1 is rejected in spite of its redirection: the loop ends at the first
    package, logs nothing and issues no further command. *)
Lemma reinstallBrewPackages_halts_counterexample :
  discardsStderr (brewReinstall "certbot") = true
  /\ sh_run bunFailingEnv (brewReinstall "certbot") tt = (1, EmptyString, tt)
  /\ reinstallBrewPackages bunFailingEnv mockPackages (initialState tt)
     = (Throw (ShellError 1),
        {| world := tt; files := ∅;
           trace := [EvShell (brewReinstall "certbot")] |})
  /\ logMessages (trace (snd (reinstallBrewPackages bunFailingEnv mockPackages
                                (initialState tt)))) = []
  /\ shellCalls (trace (snd (reinstallBrewPackages bunFailingEnv mockPackages
                               (initialState tt))))
     <> map (fun pkg => brewReinstall (pkg_name pkg)) mockPackages.
Proof.
  split; [reflexivity|]. split; [reflexivity|].
  assert (Hrun : reinstallBrewPackages bunFailingEnv mockPackages (initialState tt)
                 = (Throw (ShellError 1),
                    {| world := tt; files := ∅;
                       trace := [EvShell (brewReinstall "certbot")] |})).
  { vm_compute. reflexivity. }
  split; [exact Hrun|]. rewrite Hrun. split; [reflexivity|].
  simpl. discriminate.
Qed.

Example reinstallBrewPackages_test :
  logMessages (trace (snd (reinstallBrewPackages failingEnv mockPackages
                             (initialState tt))))
  = ["Reinstalled Brew package: certbot"; "Reinstalled Brew package: numpy";
     "Reinstalled Brew package: scipy"].
Proof. vm_compute. reflexivity. Qed.

(** ** Symlink step: properties *)

Lemma rehash_not_in_symlinkEvents (symlinkCommands : list string) :
  EvShell {| sh_strings := ["pyenv rehash"]; sh_values := []; sh_quiet := false |}
    ∉ symlinkEvents symlinkCommands.
Proof.
  unfold symlinkEvents. rewrite list_elem_of_In, in_flat_map.
  intros (cmd & _ & [Heq|[Heq|[]]]); discriminate.
Qed.

Section SymlinkFacts.

Context {W : Type} (env : Env W).

Lemma symlinkLoop_cons (cmd : string) (rest : list string) (st : State W) :
  symlinkLoop env (cmd :: rest) st
  = match shell env (runCommand cmd) st with
    | (Ok _, st1) =>
        symlinkLoop env rest
          {| world := world st1; files := files st1;
             trace := trace st1 ++ [EvLog ("Executed symlink command: " +:+ cmd)] |}
    | (Throw e, st1) => (Throw e, st1)
    end.
Proof.
  unfold symlinkLoop. simpl. unfold bind.
  destruct (shell env (runCommand cmd) st) as [[out|e] st1]; reflexivity.
Qed.

(** The loop runs the commands in order, logs each one after it has
    resolved and stops at the first one that is rejected. *)
Lemma symlinkLoop_trace (symlinkCommands : list string) (st : State W) :
  match symlinkLoop env symlinkCommands st with
  | (Ok _, st') =>
      resolveAll env (map runCommand symlinkCommands) (world st) = Some (world st')
      /\ files st' = files st
      /\ trace st' = trace st ++ symlinkEvents symlinkCommands
  | (Throw _, st') =>
      resolveAll env (map runCommand symlinkCommands) (world st) = None
      /\ exists delta,
           trace st' = trace st ++ delta
           /\ delta `prefix_of` symlinkEvents symlinkCommands
  end.
Proof.
  revert st. induction symlinkCommands as [|cmd rest IH]; intros st.
  - simpl. unfold symlinkEvents. simpl. now rewrite app_nil_r.
  - rewrite symlinkLoop_cons. cbn [map resolveAll]. unfold shell.
    destruct (sh_run env (runCommand cmd) (world st)) as [[exitCode stdout] w1].
    cbn [fst].
    destruct (sh_rejects env (runCommand cmd) exitCode).
    + split; [reflexivity|]. exists [EvShell (runCommand cmd)].
      split; [reflexivity|]. eexists. reflexivity.
    + cbn [world files trace].
      specialize (IH {| world := w1; files := files st;
                        trace := (trace st ++ [EvShell (runCommand cmd)])
                                 ++ [EvLog ("Executed symlink command: " +:+ cmd)] |}).
      destruct (symlinkLoop env rest _) as [[u|e] st']; cbn [world files trace] in IH.
      * destruct IH as (Hw & Hf & Ht).
        split; [exact Hw|]. split; [exact Hf|].
        rewrite Ht, <- !app_assoc. reflexivity.
      * destruct IH as (Hw & delta & Ht & [k Hk]). split; [assumption|].
        exists (EvShell (runCommand cmd)
                :: EvLog ("Executed symlink command: " +:+ cmd) :: delta).
        split; [rewrite Ht, <- !app_assoc; reflexivity|].
        exists k. unfold symlinkEvents in Hk |- *. simpl. now rewrite Hk.
Qed.

Lemma createSymlinks_unfold (symlinkCommands : list string) (st : State W) :
  createSymlinks env symlinkCommands st
  = match symlinkLoop env symlinkCommands st with
    | (Ok _, st1) =>
        match shell env pyenvRehash st1 with
        | (Ok _, st2) => (Ok tt, st2)
        | (Throw e, st2) => (Throw e, st2)
        end
    | (Throw e, st1) => (Throw e, st1)
    end.
Proof.
  unfold createSymlinks. fold (symlinkLoop env symlinkCommands). unfold bind.
  destruct (symlinkLoop env symlinkCommands st) as [[u|e] st1]; [|reflexivity].
  destruct (shell env pyenvRehash st1) as [[out|e] st2]; reflexivity.
Qed.

End SymlinkFacts.

(** C7, as amended: the symlink commands run one after the other in list
    order, each followed by its log message before the next one starts, up
    to the first command that the gateway rejects; the rehash command is
    never issued before or between them and never twice.  It is issued,
    exactly once and after the last symlink command, exactly when every
    symlink command resolves, and [createSymlinks] completes exactly when
    the rehash command resolves as well.  When a symlink command is
    rejected, that rejection is thrown at once: the rejected command is not
    logged, the later ones are not run and the rehash command is not
    issued. *)
Theorem createSymlinks_order {W : Type} (env : Env W)
    (symlinkCommands : list string) (st : State W) :
  let rehash :=
    EvShell {| sh_strings := ["pyenv rehash"]; sh_values := []; sh_quiet := false |} in
  let body := symlinkEvents symlinkCommands in
  let result := createSymlinks env symlinkCommands st in
  (rehash ∉ body)
  /\ (exists delta,
        trace (snd result) = trace st ++ delta
        /\ delta `prefix_of` body ++ [rehash]
        /\ (rehash ∈ delta -> delta = body ++ [rehash])
        /\ (fst result = Ok tt -> delta = body ++ [rehash])
        /\ (rehash ∈ delta
            <-> is_Some (resolveAll env (map runCommand symlinkCommands)
                           (world st))))
  /\ (forall w1,
        resolveAll env (map runCommand symlinkCommands) (world st) = Some w1 ->
        trace (snd result) = trace st ++ body ++ [rehash])
  /\ (resolveAll env (map runCommand symlinkCommands) (world st) = None ->
      exists done failed rest exitCode,
        symlinkCommands = done ++ failed :: rest
        /\ sh_rejects env (runCommand failed) exitCode = true
        /\ fst result = Throw (ShellError exitCode)
        /\ trace (snd result)
           = trace st ++ symlinkEvents done
               ++ [EvShell {| sh_strings := [EmptyString; EmptyString];
                              sh_values := [failed]; sh_quiet := true |}])
  /\ (fst result = Ok tt
      <-> is_Some (resolveAll env
                     (map runCommand symlinkCommands
                      ++ [{| sh_strings := ["pyenv rehash"]; sh_values := [];
                             sh_quiet := false |}])
                     (world st))).
Proof.
  intros rehash body result.
  pose proof (rehash_not_in_symlinkEvents symlinkCommands) as Hfresh.
  fold rehash body in Hfresh.
  split; [exact Hfresh|].
  unfold result. rewrite createSymlinks_unfold, resolveAll_app.
  pose proof (shellLogLoop_trace env runCommand
                (fun cmd => "Executed symlink command: " +:+ cmd)
                symlinkCommands st) as Hloop.
  cbv beta in Hloop. unfold symlinkLoop.
  destruct (forOf symlinkCommands _ st) as [[u|e] st1].
  - destruct Hloop as (Hw & Hf & Ht).
    change (flat_map _ symlinkCommands) with body in Ht.
    assert (Hfull : trace (snd (match shell env pyenvRehash st1 with
                                | (Ok _, st2) => (Ok tt, st2)
                                | (Throw e, st2) => (Throw e, st2)
                                end))
                    = trace st ++ body ++ [rehash]).
    { pose proof (shell_trace env pyenvRehash st1) as Hsh.
      destruct (shell env pyenvRehash st1) as [[out|e] st2]; simpl in Hsh |- *;
        rewrite Hsh, Ht, <- app_assoc; reflexivity. }
    rewrite Hw. split; [|split; [|split]].
    + exists (body ++ [rehash]). split; [exact Hfull|].
      split; [reflexivity|]. split; [reflexivity|]. split; [reflexivity|].
      split; [eauto|]. intros _. apply elem_of_app. right.
      apply list_elem_of_here.
    + intros w1 _. exact Hfull.
    + discriminate.
    + change ({| sh_strings := ["pyenv rehash"]; sh_values := [];
                 sh_quiet := false |}) with pyenvRehash.
      cbn [resolveAll]. unfold shell.
      destruct (sh_run env pyenvRehash (world st1)) as [[exitCode stdout] w2].
      cbn [fst]. destruct (sh_rejects env pyenvRehash exitCode); cbn [fst].
      * split; [discriminate|]. intros [w Hw']. discriminate.
      * split; eauto.
  - destruct Hloop as (Hnone & done & failed & rest & code & Hsplit & He & Hrej
                       & Hf & Ht).
    rewrite Hnone. cbn [fst snd]. split; [|split; [|split]].
    + exists (symlinkEvents done ++ [EvShell (runCommand failed)]).
      split; [exact Ht|]. split.
      * exists (EvLog ("Executed symlink command: " +:+ failed)
                :: symlinkEvents rest ++ [rehash]).
        unfold body, symlinkEvents. rewrite Hsplit, flat_map_app.
        simpl. rewrite <- !app_assoc. reflexivity.
      * assert (Habsent : rehash ∉ symlinkEvents done ++ [EvShell (runCommand failed)]).
        { intros Hin. apply elem_of_app in Hin as [Hin|Hin].
          - now apply (rehash_not_in_symlinkEvents done).
          - apply list_elem_of_singleton in Hin. discriminate. }
        split; [intros Hin; now destruct Habsent|].
        split; [discriminate|].
        split; [intros Hin; now destruct Habsent|].
        intros [w Hw]. discriminate.
    + intros w1 Hsome. discriminate.
    + intros _. exists done, failed, rest, code.
      split; [exact Hsplit|]. split; [exact Hrej|].
      split; [now rewrite He|exact Ht].
    + split; [discriminate|]. intros [w Hw]. discriminate.
Qed.

Lemma createSymlinks_order_witness :
  resolveAll (mockEnv [formula1]) (map runCommand ["ln -s -f /a /b"; "ln -s -f /c /d"]) 0%nat
  = Some 2%nat
  /\ trace (snd (createSymlinks (mockEnv [formula1])
                   ["ln -s -f /a /b"; "ln -s -f /c /d"] (initialState 0%nat)))
     = [] ++ symlinkEvents ["ln -s -f /a /b"; "ln -s -f /c /d"]
          ++ [EvShell {| sh_strings := ["pyenv rehash"]; sh_values := [];
                         sh_quiet := false |}]
  /\ fst (createSymlinks (mockEnv [formula1])
            ["ln -s -f /a /b"; "ln -s -f /c /d"] (initialState 0%nat)) = Ok tt
  /\ resolveAll thirdFailsEnv
       (map runCommand ["ln -s -f /a /b"; "ln -s -f /c /d"; "ln -s -f /e /f"]) 0%nat
     = None
  /\ exists done failed rest exitCode,
       ["ln -s -f /a /b"; "ln -s -f /c /d"; "ln -s -f /e /f"]
       = done ++ failed :: rest
       /\ sh_rejects thirdFailsEnv (runCommand failed) exitCode = true
       /\ fst (createSymlinks thirdFailsEnv
                 ["ln -s -f /a /b"; "ln -s -f /c /d"; "ln -s -f /e /f"]
                 (initialState 0%nat))
          = Throw (ShellError exitCode)
       /\ trace (snd (createSymlinks thirdFailsEnv
                        ["ln -s -f /a /b"; "ln -s -f /c /d"; "ln -s -f /e /f"]
                        (initialState 0%nat)))
          = [] ++ symlinkEvents done
               ++ [EvShell {| sh_strings := [EmptyString; EmptyString];
                              sh_values := [failed]; sh_quiet := true |}].
Proof.
  split; [reflexivity|].
  destruct (createSymlinks_order (mockEnv [formula1])
              ["ln -s -f /a /b"; "ln -s -f /c /d"] (initialState 0%nat))
    as (_ & _ & Hdone & _ & Hok).
  destruct (createSymlinks_order thirdFailsEnv
              ["ln -s -f /a /b"; "ln -s -f /c /d"; "ln -s -f /e /f"]
              (initialState 0%nat))
    as (_ & _ & _ & Hstop & _).
  split; [apply (Hdone 2%nat); reflexivity|].
  split; [apply (proj2 Hok); eexists; reflexivity|].
  split; [reflexivity|]. apply Hstop. reflexivity.
Defined.

(** With a gateway that follows the default of [bun] and a first symlink
    command that exits with status 1, [createSymlinks] throws at that
    command: the second command is never executed, nothing is logged and
    the rehash command is never invoked.  So the commands of a list are not
    all executed, logged and followed by one rehash whatever the list and
    the gateway are. *)
Lemma createSymlinks_rejected_counterexample :
  let symlinkCommands :=
    generateSymlinkCommands
      ["/usr/local/Cellar/python@3.9/3.9.0"; "/usr/local/Cellar/python@3.8/3.8.5"]
      "/Users/test/.pyenv" in
  let result := createSymlinks bunFailingEnv symlinkCommands (initialState tt) in
  symlinkCommands
  = ["ln -s -f /usr/local/Cellar/python@3.9/3.9.0 /Users/test/.pyenv/versions/3.9.0-brew";
     "ln -s -f /usr/local/Cellar/python@3.8/3.8.5 /Users/test/.pyenv/versions/3.8.5-brew"]
  /\ fst result = Throw (ShellError 1)
  /\ shellCalls (trace (snd result))
     = [{| sh_strings := [EmptyString; EmptyString];
           sh_values := ["ln -s -f /usr/local/Cellar/python@3.9/3.9.0 /Users/test/.pyenv/versions/3.9.0-brew"];
           sh_quiet := true |}]
  /\ logMessages (trace (snd result)) = []
  /\ (EvShell {| sh_strings := ["pyenv rehash"]; sh_values := [];
                 sh_quiet := false |} ∉ trace (snd result))
  /\ ~ (forall (W : Type) (env : Env W) (cmds : list string) (st : State W),
          trace (snd (createSymlinks env cmds st))
          = trace st ++ symlinkEvents cmds
              ++ [EvShell {| sh_strings := ["pyenv rehash"]; sh_values := [];
                             sh_quiet := false |}]).
Proof.
  cbv zeta.
  split; [vm_compute; reflexivity|].
  split; [vm_compute; reflexivity|].
  split; [vm_compute; reflexivity|].
  split; [vm_compute; reflexivity|].
  split.
  - intros Hin. vm_compute in Hin.
    apply list_elem_of_singleton in Hin. discriminate.
  - intros Hall.
    specialize (Hall unit bunFailingEnv ["ln -s -f /a /b"] (initialState tt)).
    vm_compute in Hall. discriminate.
Qed.

Example createSymlinks_test :
  shellCalls (trace (snd (createSymlinks (mockEnv [formula1])
                            ["ln -s -f /a /b"; "ln -s -f /c /d"]
                            (initialState 0%nat))))
  = [runCommand "ln -s -f /a /b"; runCommand "ln -s -f /c /d"; pyenvRehash].
Proof. vm_compute. reflexivity. Qed.

(** ** Profile update: properties *)




(** A refused write is thrown and nothing is logged. *)
Lemma updateZshrc_refused {W : Type} (env : Env W) (zshrcPath : string)
    (st : State W) :
  fs_denied env zshrcPath (world st) = true ->
  updateZshrc env zshrcPath st = (Throw FsError, st).
Proof.
  intros Hdenied. unfold updateZshrc, bind, appendFile. now rewrite Hdenied.
Qed.

(** ** Fetch step: properties *)

Lemma formulaNames_nonempty_lines (text : string) :
  formulaNames text = filter (fun line => line <> EmptyString) (split LF text).
Proof.
  unfold formulaNames. induction (split LF text) as [|line lines IH];
    [reflexivity|].
  simpl. rewrite IH. destruct line as [|c line]; simpl.
  - now rewrite filter_cons_False by auto.
  - now rewrite filter_cons_True by discriminate.
Qed.

Lemma infoRuns_length {W : Type} (env : Env W) (w w' : W)
    (names : list string) (firsts : list JSValue) :
  infoRuns env w names firsts w' -> length firsts = length names.
Proof. induction 1; simpl; [reflexivity|now f_equal]. Qed.

Lemma infoRuns_app {W : Type} (env : Env W) (w w1 w2 : W)
    (names1 names2 : list string) (firsts1 firsts2 : list JSValue) :
  infoRuns env w names1 firsts1 w1 ->
  infoRuns env w1 names2 firsts2 w2 ->
  infoRuns env w (names1 ++ names2) (firsts1 ++ firsts2) w2.
Proof.
  induction 1 as [|? ? ? ? ? ? ? ? ? ? ? Hrun Hrej Hparse Hget Hidx Hrest IH];
    intros Hsecond; simpl; [assumption|].
  eapply infoRuns_cons; eauto.
Qed.

Section FetchFacts.

Context {W : Type} (env : Env W).

Lemma fetchOne_ok (acc : list JSValue) (formula : string) (st : State W)
    (exitCode : Z) (stdout : string) (w1 : W) (info : JSON)
    (formulae first : JSValue) :
  sh_run env (brewInfo formula) (world st) = (exitCode, stdout, w1) ->
  sh_rejects env (brewInfo formula) exitCode = false ->
  json_parse env stdout = Some info ->
  getFormulae info = Ok formulae ->
  index0 formulae = Ok first ->
  fetchOne env acc formula st
  = (Ok (acc ++ [first]),
     {| world := w1; files := files st;
        trace := trace st ++ [EvShell (brewInfo formula)] |}).
Proof.
  intros Hrun Hrej Hparse Hget Hidx.
  unfold fetchOne, shellJson, bind, shell.
  rewrite Hrun, Hrej, Hparse. unfold ret, liftResult.
  rewrite Hget, Hidx. reflexivity.
Qed.

(** The loop of [fetchBrewFormulae] pushes the first elements in the order
    of the names and issues one [info] command per name. *)
Lemma fetchLoop_ok (names : list string) (firsts : list JSValue) (w w' : W) :
  infoRuns env w names firsts w' ->
  forall (acc : list JSValue) (st : State W),
    world st = w ->
    forOfAcc names (fetchOne env) acc st
    = (Ok (acc ++ firsts),
       {| world := w'; files := files st;
          trace := trace st ++ map (fun formula => EvShell (brewInfo formula)) names |}).
Proof.
  induction 1 as [w|w formula rest exitCode stdout w1 info formulae first
                    firsts w2 Hrun Hrej Hparse Hget Hidx Hrest IH];
    intros acc st Hw.
  - simpl. unfold ret. rewrite !app_nil_r. destruct st; simpl in Hw; now subst.
  - simpl. unfold bind. rewrite <- Hw in Hrun.
    rewrite (fetchOne_ok acc formula st _ _ _ _ _ _ Hrun Hrej Hparse Hget Hidx).
    rewrite IH by reflexivity. cbn [world files trace].
    now rewrite <- !app_assoc.
Qed.

Lemma fetchBrewFormulae_ok (st : State W) (exitCode : Z) (text : string)
    (w0 : W) (firsts : list JSValue) (w1 : W) :
  sh_run env brewList (world st) = (exitCode, text, w0) ->
  sh_rejects env brewList exitCode = false ->
  infoRuns env w0 (formulaNames text) firsts w1 ->
  fetchBrewFormulae env st
  = (Ok firsts,
     {| world := w1; files := files st;
        trace := trace st
                 ++ EvShell brewList
                    :: map (fun formula => EvShell (brewInfo formula))
                         (formulaNames text) |}).
Proof.
  intros Hlist Hrej Hruns. unfold fetchBrewFormulae, bind, shell.
  rewrite Hlist, Hrej.
  rewrite (fetchLoop_ok _ _ _ _ Hruns) by reflexivity.
  cbn [world files trace]. now rewrite <- app_assoc.
Qed.

End FetchFacts.

Lemma shellCalls_info (names : list string) :
  shellCalls (map (fun formula => EvShell (brewInfo formula)) names)
  = map brewInfo names.
Proof. induction names as [|n names IH]; simpl; [reflexivity|now f_equal]. Qed.

(** C2: when the list command and every [info] command resolve and parse,
    [fetchBrewFormulae] takes the non-empty lines of the list output as the
    names, issues the list command and then one [info] command per name
    (1 + N commands), and returns, in the order of the names, the first
    element of the [formulae] of each [info] result. *)
Theorem fetchBrewFormulae_spec {W : Type} (env : Env W) (st : State W)
    (exitCode : Z) (text : string) (w0 : W) (firsts : list JSValue) (w1 : W) :
  let names := filter (fun line => line <> EmptyString) (split LF text) in
  let calls :=
    sh ["brew list --formula"] []
    :: map (fun formula => sh ["brew info "; " --json=v2 2>/dev/null"] [formula])
         names in
  sh_run env brewList (world st) = (exitCode, text, w0) ->
  sh_rejects env brewList exitCode = false ->
  infoRuns env w0 names firsts w1 ->
  fetchBrewFormulae env st
  = (Ok firsts,
     {| world := w1; files := files st;
        trace := trace st ++ map EvShell calls |})
  /\ shellCalls (trace (snd (fetchBrewFormulae env st)))
     = shellCalls (trace st) ++ calls
  /\ length calls = S (length names)
  /\ length firsts = length names.
Proof.
  intros names calls Hlist Hrej Hruns.
  unfold names in Hruns. rewrite <- formulaNames_nonempty_lines in Hruns.
  pose proof (fetchBrewFormulae_ok env st _ _ _ _ _ Hlist Hrej Hruns) as Hrun.
  assert (Hcalls : EvShell brewList
                   :: map (fun formula => EvShell (brewInfo formula)) (formulaNames text)
                   = map EvShell calls).
  { unfold calls, names. rewrite <- formulaNames_nonempty_lines. simpl.
    f_equal. now rewrite map_map. }
  rewrite Hcalls in Hrun.
  split; [exact Hrun|]. rewrite Hrun. cbn [snd trace].
  split.
  { rewrite shellCalls_app. f_equal. clear.
    induction calls as [|c calls IH]; simpl; [reflexivity|now f_equal]. }
  split.
  { unfold calls. simpl. now rewrite length_map. }
  rewrite (infoRuns_length _ _ _ _ _ Hruns).
  unfold names. now rewrite <- formulaNames_nonempty_lines.
Qed.

Lemma fetchBrewFormulae_spec_witness :
  sh_run (mockEnv [formula1]) brewList 0%nat
  = (0, "formula1" +:+ nl +:+ "formula2" +:+ nl +:+ "formula3", 1%nat)
  /\ fetchBrewFormulae (mockEnv [formula1]) (initialState 0%nat)
     = (Ok [Some formula1; Some formula1; Some formula1],
        {| world := 4%nat; files := ∅;
           trace := map EvShell
                      [brewList; brewInfo "formula1"; brewInfo "formula2";
                       brewInfo "formula3"] |}).
Proof.
  split; [reflexivity|].
  assert (Hruns : infoRuns (mockEnv [formula1]) 1%nat
                    (filter (fun line => line <> EmptyString)
                       (split LF ("formula1" +:+ nl +:+ "formula2" +:+ nl +:+ "formula3")))
                    [Some formula1; Some formula1; Some formula1] 4%nat).
  { repeat (eapply infoRuns_cons; [reflexivity..|]). apply infoRuns_nil. }
  destruct (fetchBrewFormulae_spec (mockEnv [formula1]) (initialState 0%nat)
              0 ("formula1" +:+ nl +:+ "formula2" +:+ nl +:+ "formula3")
              1%nat [Some formula1; Some formula1; Some formula1] 4%nat
              eq_refl eq_refl Hruns) as (Hrun & _).
  exact Hrun.
Defined.

(** C10: an [info] result that parses and has an empty [formulae] array
    does not raise: [undefined] is pushed at the place of that name, the
    names after it are still queried, and the returned list holds an entry
    that is not a record. *)
Theorem fetchBrewFormulae_empty_formulae {W : Type} (env : Env W) (st : State W)
    (exitCode : Z) (text : string) (w0 : W)
    (before : list string) (formula : string) (after : list string)
    (firsts1 : list JSValue) (w1 : W)
    (exitCode1 : Z) (stdout1 : string) (w2 : W) (info : JSON)
    (firsts2 : list JSValue) (w3 : W) :
  sh_run env brewList (world st) = (exitCode, text, w0) ->
  sh_rejects env brewList exitCode = false ->
  formulaNames text = before ++ formula :: after ->
  infoRuns env w0 before firsts1 w1 ->
  sh_run env (brewInfo formula) w1 = (exitCode1, stdout1, w2) ->
  sh_rejects env (brewInfo formula) exitCode1 = false ->
  json_parse env stdout1 = Some info ->
  getFormulae info = Ok (Some (JArr [])) ->
  infoRuns env w2 after firsts2 w3 ->
  index0 (Some (JArr [])) = Ok None
  /\ fetchBrewFormulae env st
     = (Ok (firsts1 ++ None :: firsts2),
        {| world := w3; files := files st;
           trace := trace st
                    ++ EvShell brewList
                       :: map (fun name => EvShell (brewInfo name))
                            (before ++ formula :: after) |})
  /\ (firsts1 ++ None :: firsts2) !! length before = Some None.
Proof.
  intros Hlist Hrej Hnames Hbefore Hrun Hrej1 Hparse Hget Hafter.
  split; [reflexivity|]. split.
  - rewrite <- Hnames.
    apply (fetchBrewFormulae_ok env st exitCode text w0 _ w3 Hlist Hrej).
    rewrite Hnames. eapply infoRuns_app; [exact Hbefore|].
    eapply infoRuns_cons; eauto.
  - rewrite <- (infoRuns_length _ _ _ _ _ Hbefore).
    now rewrite list_lookup_middle.
Qed.

Lemma fetchBrewFormulae_empty_formulae_witness :
  getFormulae (mockInfo []) = Ok (Some (JArr []))
  /\ fetchBrewFormulae (mockEnv []) (initialState 0%nat)
     = (Ok ([] ++ None :: [None; None]),
        {| world := 4%nat; files := ∅;
           trace := [] ++ EvShell brewList
                          :: map (fun name => EvShell (brewInfo name))
                               ([] ++ "formula1" :: ["formula2"; "formula3"]) |}).
Proof.
  split; [reflexivity|].
  assert (Hafter : infoRuns (mockEnv []) 2%nat ["formula2"; "formula3"]
                     [None; None] 4%nat).
  { repeat (eapply infoRuns_cons; [reflexivity..|]). apply infoRuns_nil. }
  destruct (fetchBrewFormulae_empty_formulae (mockEnv []) (initialState 0%nat)
              0 ("formula1" +:+ nl +:+ "formula2" +:+ nl +:+ "formula3") 1%nat
              [] "formula1" ["formula2"; "formula3"] [] 1%nat
              0 "{...}" 2%nat (mockInfo []) [None; None] 4%nat
              eq_refl eq_refl eq_refl (infoRuns_nil _ _) eq_refl eq_refl eq_refl
              eq_refl Hafter) as (_ & Hrun & _).
  exact Hrun.
Defined.

Example fetchBrewFormulae_test :
  fst (fetchBrewFormulae (mockEnv [formula1]) (initialState 0%nat))
  = Ok [Some formula1; Some formula1; Some formula1]
  /\ length (shellCalls (trace (snd (fetchBrewFormulae (mockEnv [formula1])
                                       (initialState 0%nat))))) = 4%nat.
Proof. split; vm_compute; reflexivity. Qed.

(** * Further properties of the module *)

(** ** Time/cache utility *)

(** X1: among integer timestamps that doubles hold exactly and whose
    differences stay below 2^53 in magnitude, the age in days does not
    decrease as the clock advances, does not increase for a later
    modification time, and grows by exactly [k] when [k] whole days
    pass. *)
Theorem getDaysOld_monotone (lastModified lastModified' now now' k : Z) :
  (ExactTimes lastModified now -> ExactTimes lastModified now' ->
   now <= now' ->
   getDaysOld lastModified now <= getDaysOld lastModified now')
  /\ (ExactTimes lastModified now -> ExactTimes lastModified' now ->
      lastModified <= lastModified' ->
      getDaysOld lastModified' now <= getDaysOld lastModified now)
  /\ (ExactTimes lastModified now ->
      ExactTimes lastModified (now + k * 86400000) ->
      getDaysOld lastModified (now + k * 86400000)
      = getDaysOld lastModified now + k).
Proof.
  split; [|split].
  - intros (_ & _ & H1) (_ & _ & H2) Hle.
    rewrite !getDaysOld_exact by assumption. apply Z.div_le_mono; lia.
  - intros (_ & _ & H1) (_ & _ & H2) Hle.
    rewrite !getDaysOld_exact by assumption. apply Z.div_le_mono; lia.
  - intros (_ & _ & H1) (_ & _ & H2).
    rewrite !getDaysOld_exact by assumption.
    replace (now + k * 86400000 - lastModified)
      with (now - lastModified + k * 86400000) by lia.
    apply Z.div_add. lia.
Qed.

Lemma getDaysOld_monotone_witness :
  ExactTimes 1000 (86400000 * 2)
  /\ ExactTimes 1000 (86400000 * 5)
  /\ 86400000 * 2 <= 86400000 * 5
  /\ getDaysOld 1000 (86400000 * 2) <= getDaysOld 1000 (86400000 * 5)
  /\ ExactTimes 1000 (86400000 * 2 + 3 * 86400000)
  /\ getDaysOld 1000 (86400000 * 2 + 3 * 86400000)
     = getDaysOld 1000 (86400000 * 2) + 3.
Proof.
  assert (H2 : ExactTimes 1000 (86400000 * 2))
    by (unfold ExactTimes; change (2 ^ 53) with 9007199254740992; lia).
  assert (H5 : ExactTimes 1000 (86400000 * 5))
    by (unfold ExactTimes; change (2 ^ 53) with 9007199254740992; lia).
  split; [exact H2|]. split; [exact H5|]. split; [lia|].
  assert (H3 : ExactTimes 1000 (86400000 * 2 + 3 * 86400000))
    by (unfold ExactTimes; change (2 ^ 53) with 9007199254740992; lia).
  destruct (getDaysOld_monotone 1000 1000 (86400000 * 2) (86400000 * 5) 3)
    as (Hmono & _ & Hdays).
  split; [apply Hmono; [exact H2|exact H5|lia]|].
  split; [exact H3|]. apply Hdays; [exact H2|exact H3].
Defined.

(** X2: for integer timestamps that doubles hold exactly and whose
    difference is below 2^53 in magnitude, the cache is valid exactly when
    fewer than [expiryDays] whole days of milliseconds have elapsed; so a
    cache that is valid now was valid at every earlier such reading of the
    clock, and a valid cache stays valid under a larger expiry. *)
Theorem isCacheValid_elapsed (now now' lastModified expiryDays expiryDays' : Z) :
  ExactTimes lastModified now ->
  (isCacheValid now lastModified expiryDays = true
   <-> now - lastModified < expiryDays * 86400000)
  /\ (ExactTimes lastModified now' ->
      now' <= now ->
      isCacheValid now lastModified expiryDays = true ->
      isCacheValid now' lastModified expiryDays = true)
  /\ (expiryDays <= expiryDays' ->
      isCacheValid now lastModified expiryDays = true ->
      isCacheValid now lastModified expiryDays' = true).
Proof.
  intros (_ & _ & Hexact).
  assert (Hms : forall t e,
             Z.abs (t - lastModified) < 2 ^ 53 ->
             isCacheValid t lastModified e = true
             <-> t - lastModified < e * 86400000).
  { intros t e Ht. rewrite isCacheValid_iff.
    pose proof (getDaysOld_floor lastModified t Ht) as Hfloor. split; nia. }
  split; [apply Hms, Hexact|]. split.
  - intros (_ & _ & Hexact') Hle. rewrite !Hms by assumption. lia.
  - intros Hle. rewrite !Hms by assumption. nia.
Qed.

Lemma isCacheValid_elapsed_witness :
  ExactTimes 0 (86400000 * 2)
  /\ ExactTimes 0 86400000
  /\ 86400000 <= 86400000 * 2
  /\ isCacheValid (86400000 * 2) 0 7 = true
  /\ isCacheValid 86400000 0 7 = true.
Proof.
  assert (H2 : ExactTimes 0 (86400000 * 2))
    by (unfold ExactTimes; change (2 ^ 53) with 9007199254740992; lia).
  assert (H1 : ExactTimes 0 86400000)
    by (unfold ExactTimes; change (2 ^ 53) with 9007199254740992; lia).
  assert (Hvalid : isCacheValid (86400000 * 2) 0 7 = true)
    by (vm_compute; reflexivity).
  split; [exact H2|]. split; [exact H1|]. split; [lia|]. split; [exact Hvalid|].
  destruct (isCacheValid_elapsed (86400000 * 2) 86400000 0 7 7 H2)
    as (_ & Hearlier & _).
  apply Hearlier; [exact H1|lia|exact Hvalid].
Defined.

(** ** Classifier and extractor together *)

Lemma extractPythonVersions_candidates (packages : list Package) :
  extractPythonVersions packages
  = Set_from (List.filter isPythonDep (concat (map pkg_dependencies packages))).
Proof.
  unfold extractPythonVersions. now rewrite flat_map_filter_concat.
Qed.

Lemma extractPythonVersions_elem (packages : list Package) (x : string) :
  x ∈ extractPythonVersions packages
  <-> exists pkg, pkg ∈ packages /\ x ∈ pkg_dependencies pkg
                  /\ isPythonDep x = true.
Proof.
  unfold extractPythonVersions, Set_from.
  rewrite Set_fold_elem, elem_of_nil, list_elem_of_In, in_flat_map.
  split.
  - intros [[]|(pkg & Hpkg & Hx)]. apply filter_In in Hx as [Hx Hpy].
    exists pkg. rewrite !list_elem_of_In. auto.
  - intros (pkg & Hpkg & Hx & Hpy). right. exists pkg.
    rewrite filter_In, <- !list_elem_of_In. auto.
Qed.

Lemma extractPythonVersions_app (packages more : list Package) :
  extractPythonVersions (packages ++ more)
  = fold_left Set_add
      (flat_map (fun pkg => List.filter isPythonDep (pkg_dependencies pkg)) more)
      (extractPythonVersions packages).
Proof.
  unfold extractPythonVersions, Set_from.
  now rewrite flat_map_app, fold_left_app.
Qed.

Lemma filter_none (p : string -> bool) (l : list string) :
  existsb p l = false -> List.filter p l = [].
Proof.
  induction l as [|x l IH]; simpl; [reflexivity|].
  intros [Hx Hl]%orb_false_elim. rewrite Hx. now apply IH.
Qed.

(** X3: classifying first loses no version: the versions extracted from
    the classified packages are those extracted from all the formulae, and
    there is at least one of them as soon as one formula is classified. *)
Theorem extract_after_identify (formulae : list Formula) :
  extractPythonVersions (identifyBrewPythonPackages formulae)
  = extractPythonVersions (map toPackage formulae)
  /\ (identifyBrewPythonPackages formulae = []
      <-> extractPythonVersions (identifyBrewPythonPackages formulae) = []).
Proof.
  split.
  - unfold extractPythonVersions, identifyBrewPythonPackages. f_equal.
    induction formulae as [|formula formulae IH]; simpl; [reflexivity|].
    destruct (dependsOnPython formula) eqn:Hdep; simpl; rewrite IH;
      [reflexivity|].
    unfold dependsOnPython in Hdep. now rewrite (filter_none _ _ Hdep).
  - split; [intros ->; reflexivity|].
    intros Hnone.
    destruct (identifyBrewPythonPackages formulae) as [|pkg rest] eqn:Hid;
      [reflexivity|exfalso].
    assert (Hin : In pkg (identifyBrewPythonPackages formulae))
      by (rewrite Hid; now left).
    unfold identifyBrewPythonPackages in Hin.
    apply in_map_iff in Hin as (formula & <- & Hformula).
    apply filter_In in Hformula as [_ Hdep].
    unfold dependsOnPython in Hdep. apply existsb_exists in Hdep as (dep & Hdep & Hpy).
    assert (Hx : dep ∈ extractPythonVersions (toPackage formula :: rest)).
    { apply extractPythonVersions_elem. exists (toPackage formula).
      split; [apply list_elem_of_here|]. split; [now apply list_elem_of_In|exact Hpy]. }
    rewrite Hnone in Hx. now apply elem_of_nil in Hx.
Qed.

Lemma Set_fold_known (l acc : list string) :
  (forall x, x ∈ l -> x ∈ acc) -> fold_left Set_add l acc = acc.
Proof.
  induction l as [|x l IH]; intros Hknown; simpl; [reflexivity|].
  assert (Hx : Set_add acc x = acc).
  { unfold Set_add. rewrite bool_decide_eq_true_2; [reflexivity|].
    apply Hknown, list_elem_of_here. }
  rewrite Hx. apply IH. intros y Hy. apply Hknown. now apply list_elem_of_further.
Qed.

(** X4: versions already extracted keep their place when more packages
    follow, and packages that bring no new version change nothing; in
    particular going through the same packages twice gives the same
    versions. *)
Theorem extractPythonVersions_more (packages more : list Package) :
  extractPythonVersions packages `prefix_of` extractPythonVersions (packages ++ more)
  /\ ((forall pkg dep,
          pkg ∈ more -> dep ∈ pkg_dependencies pkg -> isPythonDep dep = true ->
          dep ∈ extractPythonVersions packages) ->
      extractPythonVersions (packages ++ more) = extractPythonVersions packages)
  /\ extractPythonVersions (packages ++ packages) = extractPythonVersions packages.
Proof.
  assert (Hknown : forall extra,
    (forall pkg dep,
        pkg ∈ extra -> dep ∈ pkg_dependencies pkg -> isPythonDep dep = true ->
        dep ∈ extractPythonVersions packages) ->
    extractPythonVersions (packages ++ extra) = extractPythonVersions packages).
  { intros extra Hold. rewrite extractPythonVersions_app. apply Set_fold_known.
    intros x Hx. apply list_elem_of_In, in_flat_map in Hx as (pkg & Hpkg & Hx).
    apply filter_In in Hx as [Hx Hpy].
    apply (Hold pkg x); [now apply list_elem_of_In|now apply list_elem_of_In|exact Hpy]. }
  split.
  - rewrite extractPythonVersions_app.
    destruct (Set_fold_extends
                (flat_map (fun pkg => List.filter isPythonDep (pkg_dependencies pkg)) more)
                (extractPythonVersions packages)) as [ext Hext].
    exists ext. exact Hext.
  - split; [apply Hknown|]. apply Hknown.
    intros pkg dep Hpkg Hdep Hpy. apply extractPythonVersions_elem. eauto.
Qed.

Lemma extractPythonVersions_more_witness :
  (forall pkg dep,
      pkg ∈ [ {| pkg_name := "black"; pkg_version := "24.0";
                 pkg_dependencies := ["python@3.8"] |} ] ->
      dep ∈ pkg_dependencies pkg -> isPythonDep dep = true ->
      dep ∈ extractPythonVersions mockPackages)
  /\ extractPythonVersions
       (mockPackages ++ [ {| pkg_name := "black"; pkg_version := "24.0";
                             pkg_dependencies := ["python@3.8"] |} ])
     = extractPythonVersions mockPackages.
Proof.
  assert (Hold : forall pkg dep,
      pkg ∈ [ {| pkg_name := "black"; pkg_version := "24.0";
                 pkg_dependencies := ["python@3.8"] |} ] ->
      dep ∈ pkg_dependencies pkg -> isPythonDep dep = true ->
      dep ∈ extractPythonVersions mockPackages).
  { intros pkg dep Hpkg Hdep _. apply list_elem_of_singleton in Hpkg. subst pkg.
    apply list_elem_of_singleton in Hdep. subst dep.
    apply list_elem_of_In. vm_compute. auto. }
  split; [exact Hold|].
  destruct (extractPythonVersions_more mockPackages
              [ {| pkg_name := "black"; pkg_version := "24.0";
                   pkg_dependencies := ["python@3.8"] |} ]) as (_ & Hsame & _).
  exact (Hsame Hold).
Defined.

(** ** Lines of the list output *)

Lemma split_concat (sep : ascii) (pieces : list string) :
  pieces <> [] ->
  Forall (fun piece => freeOf sep piece = true) pieces ->
  split sep (String.concat (String sep EmptyString) pieces) = pieces.
Proof.
  induction pieces as [|x pieces IH]; intros Hne Hfree; [congruence|].
  inversion Hfree as [|? ? Hx Hrest]; subst.
  destruct pieces as [|y pieces].
  - simpl. now apply split_free.
  - change (String.concat (String sep EmptyString) (x :: y :: pieces))
      with (x +:+ String sep (String.concat (String sep EmptyString) (y :: pieces))).
    rewrite split_app, (split_free _ _ Hx), IH by (assumption || discriminate).
    reflexivity.
Qed.

Lemma filter_truthy_all (names : list string) :
  Forall (fun name => name <> EmptyString) names ->
  List.filter truthy names = names.
Proof.
  induction 1 as [|name names Hname _ IH]; simpl; [reflexivity|].
  destruct name; [congruence|]. simpl. now rewrite IH.
Qed.

(** X5: the names read from the list output are never empty and never hold
    a line feed; and the output that lists given names one per line, each
    of them non-empty and without line feed, is read back as exactly those
    names, with or without a final line feed. *)
Theorem formulaNames_lines (text : string) (names : list string) :
  Forall (fun name => name <> EmptyString /\ freeOf LF name = true)
         (formulaNames text)
  /\ (Forall (fun name => name <> EmptyString /\ freeOf LF name = true) names ->
      formulaNames (String.concat nl names) = names
      /\ formulaNames (String.concat nl names +:+ nl) = names).
Proof.
  split.
  - unfold formulaNames. apply Forall_forall. intros name Hin.
    apply list_elem_of_In, filter_In in Hin as [Hin Htruthy]. split.
    + intros ->. discriminate.
    + pose proof (split_members_free LF text) as Hfree.
      rewrite Forall_forall in Hfree. apply Hfree. now apply list_elem_of_In.
  - intros Hnames.
    assert (Hne : Forall (fun name => name <> EmptyString) names)
      by (eapply Forall_impl; [exact Hnames|]; intros ? [? _]; assumption).
    assert (Hfree : Forall (fun name => freeOf LF name = true) names)
      by (eapply Forall_impl; [exact Hnames|]; intros ? [_ ?]; assumption).
    unfold formulaNames, nl.
    destruct names as [|name names]; [split; reflexivity|].
    split.
    + rewrite split_concat by (assumption || discriminate).
      now apply filter_truthy_all.
    + rewrite split_app, split_concat by (assumption || discriminate).
      rewrite List.filter_app, filter_truthy_all by assumption.
      simpl. now rewrite app_nil_r.
Qed.

Lemma formulaNames_lines_witness :
  Forall (fun name => name <> EmptyString /\ freeOf LF name = true)
         ["certbot"; "numpy"]
  /\ formulaNames (String.concat nl ["certbot"; "numpy"] +:+ nl)
     = ["certbot"; "numpy"].
Proof.
  assert (Hnames : Forall (fun name => name <> EmptyString /\ freeOf LF name = true)
                     ["certbot"; "numpy"]).
  { repeat constructor; discriminate. }
  split; [exact Hnames|].
  destruct (formulaNames_lines EmptyString ["certbot"; "numpy"]) as (_ & Hback).
  exact (proj2 (Hback Hnames)).
Defined.

(** ** Paths *)

Lemma segments_dir_name (dir name : string) :
  freeOf SLASH name = true ->
  Path.segments (dir +:+ "/" +:+ name) = Path.segments dir ++ [name].
Proof.
  intros Hfree. unfold Path.segments.
  change (dir +:+ "/" +:+ name) with (dir +:+ String SLASH name).
  now rewrite split_app, (split_free _ _ Hfree).
Qed.

Lemma basename_dir_name (dir name : string) :
  name <> EmptyString -> freeOf SLASH name = true ->
  Path.basename (dir +:+ "/" +:+ name) = name.
Proof.
  intros Hne Hfree. unfold Path.basename.
  rewrite (segments_dir_name _ _ Hfree), List.filter_app. simpl.
  destruct name; [congruence|]. simpl. apply last_last.
Qed.

(** X6: the base name of a directory followed by a separator and a
    non-empty name without separator is that name; a separator at the end
    of a path does not change its base name; and a base name never holds a
    separator. *)
Theorem basename_of_path (dir name p : string) :
  (name <> EmptyString -> freeOf SLASH name = true ->
   Path.basename (dir +:+ "/" +:+ name) = name)
  /\ Path.basename (p +:+ "/") = Path.basename p
  /\ freeOf SLASH (Path.basename p) = true.
Proof.
  split; [|split].
  - apply basename_dir_name.
  - unfold Path.basename, Path.segments.
    change (p +:+ "/") with (p +:+ String SLASH EmptyString).
    rewrite split_app, List.filter_app. simpl. now rewrite app_nil_r.
  - apply basename_free.
Qed.

Lemma basename_of_path_witness :
  "3.9.0" <> EmptyString
  /\ freeOf SLASH "3.9.0" = true
  /\ Path.basename ("/usr/local/Cellar/python@3.9" +:+ "/" +:+ "3.9.0") = "3.9.0".
Proof.
  split; [discriminate|]. split; [reflexivity|].
  destruct (basename_of_path "/usr/local/Cellar/python@3.9" "3.9.0" EmptyString)
    as (Hname & _).
  apply Hname; [discriminate|reflexivity].
Defined.


Lemma normalize_nonempty (p : string) :
  p <> EmptyString ->
  Path.normalize p
  = let body := Path.normalizeString p (negb (Path.isAbsolute p)) in
    match body with
    | EmptyString =>
        if Path.isAbsolute p then "/"
        else if Path.trailingSeparator p then "./" else "."
    | String _ _ =>
        let body' := if Path.trailingSeparator p then body +:+ "/" else body in
        if Path.isAbsolute p then "/" +:+ body' else body'
    end.
Proof. destruct p; [congruence|reflexivity]. Qed.



(** ** The root of the version manager *)

Lemma cleanRoot_subdirectory (root name : string) :
  cleanRoot root = true ->
  plainSegment name = true ->
  freeOf SLASH name = true ->
  cleanRoot (root +:+ "/" +:+ name) = true.
Proof.
  intros Hclean Hplain Hfree. unfold cleanRoot in *.
  rewrite (segments_dir_name _ _ Hfree).
  destruct (Path.segments root) as [|seg segs] eqn:Hroot.
  { destruct (split_inv SLASH root) as (h & t & Hsplit).
    unfold Path.segments in Hroot. congruence. }
  destruct seg as [|c seg].
  - destruct segs as [|seg' segs]; [discriminate|].
    change ((EmptyString :: seg' :: segs) ++ [name])
      with (EmptyString :: (seg' :: segs) ++ [name]).
    cbv iota. change ((seg' :: segs) ++ [name]) with (seg' :: (segs ++ [name])).
    cbv iota. change (seg' :: (segs ++ [name])) with ((seg' :: segs) ++ [name]).
    rewrite forallb_app, Hclean. simpl. now rewrite Hplain.
  - change ((String c seg :: segs) ++ [name])
      with (String c seg :: (segs ++ [name])).
    cbv iota. change (String c seg :: (segs ++ [name]))
      with ((String c seg :: segs) ++ [name]).
    rewrite forallb_app, Hclean. simpl. now rewrite Hplain.
Qed.

(** X8: the root of the version manager is never the empty string.  It is
    the variable [PYENV_ROOT] when that is set and not empty; otherwise it
    is the home directory followed by [/.pyenv], and the relative path
    [undefined/.pyenv] when [HOME] is not set either; and with a home made
    of ordinary segments it is again a root made of ordinary segments. *)
Theorem PYENV_ROOT_default (processEnv : ProcessEnv) :
  PYENV_ROOT processEnv <> EmptyString
  /\ (forall root,
        processEnv !! "PYENV_ROOT" = Some root -> root <> EmptyString ->
        PYENV_ROOT processEnv = root)
  /\ (processEnv !! "PYENV_ROOT" = None
      \/ processEnv !! "PYENV_ROOT" = Some EmptyString ->
      (forall home,
          processEnv !! "HOME" = Some home ->
          PYENV_ROOT processEnv = home +:+ "/.pyenv"
          /\ (cleanRoot home = true -> cleanRoot (PYENV_ROOT processEnv) = true))
      /\ (processEnv !! "HOME" = None ->
          PYENV_ROOT processEnv = "undefined/.pyenv")).
Proof.
  assert (Hfallback : forall v, interpolate v +:+ "/.pyenv" <> EmptyString).
  { intros v. destruct (interpolate v); discriminate. }
  assert (Hunset : processEnv !! "PYENV_ROOT" = None
                   \/ processEnv !! "PYENV_ROOT" = Some EmptyString ->
                   PYENV_ROOT processEnv
                   = interpolate (processEnv !! "HOME") +:+ "/.pyenv").
  { unfold PYENV_ROOT. intros [-> | ->]; reflexivity. }
  split; [|split].
  - unfold PYENV_ROOT. destruct (processEnv !! "PYENV_ROOT") as [root|];
      [|apply Hfallback].
    destruct root; [apply Hfallback|discriminate].
  - intros root Hroot Hne. unfold PYENV_ROOT. rewrite Hroot.
    destruct root; [congruence|reflexivity].
  - intros Hnone. rewrite (Hunset Hnone). split.
    + intros home Hhome. rewrite Hhome. split; [reflexivity|].
      intros Hclean. now apply (cleanRoot_subdirectory home ".pyenv").
    + intros Hhome. rewrite Hhome. reflexivity.
Qed.

Lemma PYENV_ROOT_default_witness :
  (<["HOME" := "/Users/test"]> (∅ : ProcessEnv)) !! "PYENV_ROOT" = None
  /\ (<["HOME" := "/Users/test"]> (∅ : ProcessEnv)) !! "HOME" = Some "/Users/test"
  /\ PYENV_ROOT (<["HOME" := "/Users/test"]> (∅ : ProcessEnv))
     = "/Users/test" +:+ "/.pyenv".
Proof.
  assert (Hroot : (<["HOME" := "/Users/test"]> (∅ : ProcessEnv)) !! "PYENV_ROOT" = None)
    by reflexivity.
  assert (Hhome : (<["HOME" := "/Users/test"]> (∅ : ProcessEnv)) !! "HOME"
                  = Some "/Users/test") by reflexivity.
  split; [exact Hroot|]. split; [exact Hhome|].
  destruct (PYENV_ROOT_default (<["HOME" := "/Users/test"]> ∅)) as (_ & _ & Hunset).
  destruct (Hunset (or_introl Hroot)) as (Hset & _).
  exact (proj1 (Hset "/Users/test" Hhome)).
Defined.

(** ** Fetch step: failures *)

Section FetchFailures.

Context {W : Type} (env : Env W).

Lemma fetchLoop_fails (before : list string) (formula : string)
    (after : list string) (firsts : list JSValue) (w w1 : W) (e : Error)
    (st2 : State W) :
  infoRuns env w before firsts w1 ->
  forall (acc : list JSValue) (st : State W),
    world st = w ->
    fetchOne env (acc ++ firsts) formula
      {| world := w1; files := files st;
         trace := trace st ++ map (fun name => EvShell (brewInfo name)) before |}
    = (Throw e, st2) ->
    forOfAcc (before ++ formula :: after) (fetchOne env) acc st = (Throw e, st2).
Proof.
  induction 1 as [w|w name rest exitCode stdout w1 info formulae first
                    firsts w2 Hrun Hrej Hparse Hget Hidx Hrest IH];
    intros acc st Hw Hfail.
  - simpl in Hfail |- *. rewrite !app_nil_r in Hfail. unfold bind.
    replace st with {| world := w; files := files st; trace := trace st |}
      by (destruct st; simpl in Hw; now subst).
    cbn [world files trace]. now rewrite Hfail.
  - cbn [app forOfAcc]. unfold bind at 1. rewrite <- Hw in Hrun.
    rewrite (fetchOne_ok env acc name st _ _ _ _ _ _ Hrun Hrej Hparse Hget Hidx).
    apply IH; [reflexivity|]. cbn [world files trace].
    rewrite <- !app_assoc. exact Hfail.
Qed.

Lemma fetchOne_fails (acc : list JSValue) (formula : string) (st : State W)
    (exitCode : Z) (stdout : string) (w1 : W) :
  sh_run env (brewInfo formula) (world st) = (exitCode, stdout, w1) ->
  let st' := {| world := w1; files := files st;
                trace := trace st ++ [EvShell (brewInfo formula)] |} in
  (sh_rejects env (brewInfo formula) exitCode = true ->
   fetchOne env acc formula st = (Throw (ShellError exitCode), st'))
  /\ (sh_rejects env (brewInfo formula) exitCode = false ->
      json_parse env stdout = None ->
      fetchOne env acc formula st = (Throw SyntaxError, st'))
  /\ (sh_rejects env (brewInfo formula) exitCode = false ->
      forall info,
        json_parse env stdout = Some info ->
        info = JNull \/ getFormulae info = Ok None
        \/ getFormulae info = Ok (Some JNull) ->
        fetchOne env acc formula st = (Throw TypeError, st')).
Proof.
  intros Hrun st'. unfold fetchOne, shellJson, bind, shell. rewrite Hrun.
  split; [|split].
  - intros ->. reflexivity.
  - intros -> ->. reflexivity.
  - intros -> info -> [-> | [Hget | Hget]]; [reflexivity| |];
      unfold ret, liftResult; rewrite Hget; reflexivity.
Qed.

End FetchFailures.

(** X9: when the [info] command of one name fails, the whole fetch throws
    and returns no partial list, and the names after it are not queried:
    a rejected command throws its shell error, an output that does not
    parse throws a syntax error, and a parsed value that is [null] or has
    no [formulae] (or a [null] one) throws a type error. *)
Theorem fetchBrewFormulae_info_failure {W : Type} (env : Env W) (st : State W)
    (exitCode : Z) (text : string) (w0 : W)
    (before : list string) (formula : string) (after : list string)
    (firsts : list JSValue) (w1 : W)
    (exitCode1 : Z) (stdout1 : string) (w2 : W) :
  sh_run env brewList (world st) = (exitCode, text, w0) ->
  sh_rejects env brewList exitCode = false ->
  formulaNames text = before ++ formula :: after ->
  infoRuns env w0 before firsts w1 ->
  sh_run env (brewInfo formula) w1 = (exitCode1, stdout1, w2) ->
  let st' :=
    {| world := w2; files := files st;
       trace := trace st
                ++ EvShell brewList
                   :: map (fun name => EvShell (brewInfo name)) (before ++ [formula]) |} in
  (sh_rejects env (brewInfo formula) exitCode1 = true ->
   fetchBrewFormulae env st = (Throw (ShellError exitCode1), st'))
  /\ (sh_rejects env (brewInfo formula) exitCode1 = false ->
      json_parse env stdout1 = None ->
      fetchBrewFormulae env st = (Throw SyntaxError, st'))
  /\ (sh_rejects env (brewInfo formula) exitCode1 = false ->
      forall info,
        json_parse env stdout1 = Some info ->
        info = JNull \/ getFormulae info = Ok None
        \/ getFormulae info = Ok (Some JNull) ->
        fetchBrewFormulae env st = (Throw TypeError, st')).
Proof.
  intros Hlist Hrej Hnames Hbefore Hrun st'.
  assert (Hfetch : forall e,
    fetchOne env ([] ++ firsts) formula
      {| world := w1; files := files st;
         trace := (trace st ++ [EvShell brewList])
                  ++ map (fun name => EvShell (brewInfo name)) before |}
    = (Throw e, st') ->
    fetchBrewFormulae env st = (Throw e, st')).
  { intros e Hfail. unfold fetchBrewFormulae, bind, shell.
    rewrite Hlist, Hrej, Hnames.
    apply (fetchLoop_fails env before formula after firsts w0 w1 e st' Hbefore);
      [reflexivity|exact Hfail]. }
  pose proof (fetchOne_fails env ([] ++ firsts) formula
                {| world := w1; files := files st;
                   trace := (trace st ++ [EvShell brewList])
                            ++ map (fun name => EvShell (brewInfo name)) before |}
                exitCode1 stdout1 w2 Hrun) as Hone.
  cbn [world files trace] in Hone.
  assert (Hst : {| world := w2; files := files st;
                   trace := ((trace st ++ [EvShell brewList])
                             ++ map (fun name => EvShell (brewInfo name)) before)
                            ++ [EvShell (brewInfo formula)] |} = st').
  { unfold st'. f_equal. rewrite map_app. simpl. rewrite <- !app_assoc.
    reflexivity. }
  rewrite Hst in Hone. destruct Hone as (Hrejected & Hsyntax & Htype).
  split; [|split].
  - intros Hr. apply Hfetch, Hrejected, Hr.
  - intros Hr Hp. apply Hfetch, Hsyntax; assumption.
  - intros Hr info Hp Hshape. apply Hfetch, (Htype Hr info Hp Hshape).
Qed.

Lemma fetchBrewFormulae_info_failure_witness :
  getFormulae (JObj []) = Ok None
  /\ fetchBrewFormulae (sampleEnv (fun _ => Some (JObj []))) (initialState 0%nat)
     = (Throw TypeError,
        {| world := 2%nat; files := ∅;
           trace := [] ++ EvShell brewList
                          :: map (fun name => EvShell (brewInfo name))
                               ([] ++ ["formula1"]) |}).
Proof.
  split; [reflexivity|].
  destruct (fetchBrewFormulae_info_failure
              (sampleEnv (fun _ => Some (JObj []))) (initialState 0%nat)
              0 ("formula1" +:+ nl +:+ "formula2" +:+ nl +:+ "formula3") 1%nat
              [] "formula1" ["formula2"; "formula3"] [] 1%nat
              0 "{...}" 2%nat
              eq_refl eq_refl eq_refl (infoRuns_nil _ _) eq_refl)
    as (_ & _ & Htype).
  apply (Htype eq_refl (JObj []) eq_refl). right. left. reflexivity.
Defined.

(** ** Uninstall step *)

Lemma uninstallBrewPythonVersions_trace {W : Type} (env : Env W)
    (pythonVersions : list string) (st : State W) :
  match uninstallBrewPythonVersions env pythonVersions st with
  | (Ok _, st') =>
      resolveAll env (map brewUninstall pythonVersions) (world st)
      = Some (world st')
      /\ files st' = files st
      /\ trace st' = trace st ++ uninstallEvents pythonVersions
  | (Throw e, st') =>
      resolveAll env (map brewUninstall pythonVersions) (world st) = None
      /\ exists done failed rest exitCode,
           pythonVersions = done ++ failed :: rest
           /\ e = ShellError exitCode
           /\ sh_rejects env (brewUninstall failed) exitCode = true
           /\ files st' = files st
           /\ trace st'
              = trace st ++ uninstallEvents done ++ [EvShell (brewUninstall failed)]
  end.
Proof.
  exact (shellLogLoop_trace env brewUninstall
           (fun version => "Uninstalled Brew-managed Python version: " +:+ version)
           pythonVersions st).
Qed.

(** X10: the uninstall loop removes the versions in input order and logs
    each removal after its command; it has no failure handling of its own,
    so it ends at the first command that the gateway rejects, with no
    message for that version and no command for the later ones, and it
    completes exactly when every command resolves. *)
Theorem uninstallBrewPythonVersions_until_rejection {W : Type} (env : Env W)
    (pythonVersions : list string) (st : State W) :
  let result := uninstallBrewPythonVersions env pythonVersions st in
  (fst result = Ok tt
   <-> is_Some (resolveAll env (map brewUninstall pythonVersions) (world st)))
  /\ (fst result = Ok tt ->
      trace (snd result) = trace st ++ uninstallEvents pythonVersions
      /\ logMessages (uninstallEvents pythonVersions)
         = map (fun version =>
                  "Uninstalled Brew-managed Python version: " +:+ version)
               pythonVersions)
  /\ (forall e,
        fst result = Throw e ->
        exists done failed rest exitCode,
          pythonVersions = done ++ failed :: rest
          /\ e = ShellError exitCode
          /\ sh_rejects env (brewUninstall failed) exitCode = true
          /\ trace (snd result)
             = trace st ++ uninstallEvents done
                 ++ [EvShell {| sh_strings := ["brew uninstall --ignore-dependencies ";
                                               " 2>/dev/null"];
                                sh_values := [failed]; sh_quiet := true |}]).
Proof.
  intros result.
  pose proof (uninstallBrewPythonVersions_trace env pythonVersions st) as Hrun.
  fold result in Hrun. destruct result as [[[]|e] st']; cbn [fst snd].
  - destruct Hrun as (Hw & _ & Ht). split; [|split].
    + split; [intros _; rewrite Hw; eauto|reflexivity].
    + intros _. split; [exact Ht|]. apply logMessages_loop.
    + intros e He. discriminate.
  - destruct Hrun as (Hw & done & failed & rest & code & Hsplit & He & Hrej & _ & Ht).
    split; [|split].
    + split; [discriminate|]. rewrite Hw. intros [? Hsome]. discriminate.
    + discriminate.
    + intros e' He'. injection He' as <-.
      exists done, failed, rest, code. auto.
Qed.

Lemma uninstallBrewPythonVersions_until_rejection_witness :
  fst (uninstallBrewPythonVersions thirdFailsEnv
         ["python@3.9"; "python@3.8"; "python@3.7"] (initialState 0%nat))
  = Throw (ShellError 1)
  /\ exists done failed rest exitCode,
       ["python@3.9"; "python@3.8"; "python@3.7"] = done ++ failed :: rest
       /\ ShellError 1 = ShellError exitCode
       /\ sh_rejects thirdFailsEnv (brewUninstall failed) exitCode = true
       /\ trace (snd (uninstallBrewPythonVersions thirdFailsEnv
                        ["python@3.9"; "python@3.8"; "python@3.7"]
                        (initialState 0%nat)))
          = [] ++ uninstallEvents done
               ++ [EvShell {| sh_strings := ["brew uninstall --ignore-dependencies ";
                                             " 2>/dev/null"];
                              sh_values := [failed]; sh_quiet := true |}].
Proof.
  assert (Hthrown : fst (uninstallBrewPythonVersions thirdFailsEnv
                           ["python@3.9"; "python@3.8"; "python@3.7"]
                           (initialState 0%nat))
                    = Throw (ShellError 1)) by reflexivity.
  split; [exact Hthrown|].
  destruct (uninstallBrewPythonVersions_until_rejection thirdFailsEnv
              ["python@3.9"; "python@3.8"; "python@3.7"] (initialState 0%nat))
    as (_ & _ & Hstop).
  exact (Hstop (ShellError 1) Hthrown).
Defined.

Lemma NoDup_map_inj {A B : Type} (f : A -> B) (l : list A) :
  (forall x y, x ∈ l -> y ∈ l -> f x = f y -> x = y) ->
  NoDup l -> NoDup (map f l).
Proof.
  intros Hinj. induction 1 as [|x l Hx Hl IH]; simpl; [constructor|].
  constructor.
  - intros Hin. apply list_elem_of_In, in_map_iff in Hin as (y & Heq & Hy).
    apply list_elem_of_In in Hy.
    assert (y = x).
    { apply Hinj; [now apply list_elem_of_further|apply list_elem_of_here|exact Heq]. }
    subst y. contradiction.
  - apply IH. intros a b Ha Hb. apply Hinj; now apply list_elem_of_further.
Qed.

Lemma extractPythonVersions_NoDup (packages : list Package) :
  NoDup (extractPythonVersions packages).
Proof. unfold extractPythonVersions. apply Set_fold_NoDup, NoDup_nil_2. Qed.

(** X11: fed with the extracted versions, the uninstall loop only ever
    uninstalls formulae whose name starts with [python@] and is a
    dependency of one of the packages, in the order of extraction, and none
    of them twice, whatever the gateway answers. *)
Theorem uninstall_extracted_versions {W : Type} (env : Env W)
    (packages : list Package) (st : State W) :
  exists issued,
    shellCalls (trace (snd (uninstallBrewPythonVersions env
                              (extractPythonVersions packages) st)))
    = shellCalls (trace st)
      ++ map (fun version =>
                {| sh_strings := ["brew uninstall --ignore-dependencies ";
                                  " 2>/dev/null"];
                   sh_values := [version]; sh_quiet := true |})
             issued
    /\ issued `prefix_of` extractPythonVersions packages
    /\ NoDup issued
    /\ forall version,
         version ∈ issued ->
         StartsWith version "python@"
         /\ exists pkg, pkg ∈ packages /\ version ∈ pkg_dependencies pkg.
Proof.
  pose proof (uninstallBrewPythonVersions_trace env
                (extractPythonVersions packages) st) as Hrun.
  assert (Hissued : exists issued,
    shellCalls (trace (snd (uninstallBrewPythonVersions env
                              (extractPythonVersions packages) st)))
    = shellCalls (trace st) ++ map brewUninstall issued
    /\ issued `prefix_of` extractPythonVersions packages).
  { destruct (uninstallBrewPythonVersions env (extractPythonVersions packages) st)
      as [[u|e] st']; cbn [snd].
    - destruct Hrun as (_ & _ & Ht). exists (extractPythonVersions packages).
      split; [|reflexivity].
      rewrite Ht, shellCalls_app. f_equal. apply shellCalls_loop.
    - destruct Hrun as (_ & done & failed & rest & code & Hsplit & _ & _ & _ & Ht).
      exists (done ++ [failed]). split.
      + rewrite Ht, !shellCalls_app. f_equal. unfold uninstallEvents.
        rewrite (shellCalls_loop brewUninstall), map_app. reflexivity.
      + exists rest. rewrite Hsplit, <- app_assoc. reflexivity. }
  destruct Hissued as (issued & Hcalls & [rest Hprefix]).
  exists issued. split; [exact Hcalls|]. split; [now exists rest|].
  pose proof (extractPythonVersions_NoDup packages) as Hnodup.
  rewrite Hprefix in Hnodup. apply NoDup_app in Hnodup as (Hnodup & _ & _).
  split; [exact Hnodup|].
  intros version Hin.
  assert (Hx : version ∈ extractPythonVersions packages).
  { rewrite Hprefix. apply elem_of_app. now left. }
  apply extractPythonVersions_elem in Hx as (pkg & Hpkg & Hdep & Hpy).
  split; [now apply isPythonDep_spec|eauto].
Qed.

(** ** Install step *)

Lemma awaitAll_facts {W : Type} (env : Env W) (calls : list ShellCall)
    (st : State W) :
  logMessages (trace (snd (awaitAll env calls st))) = logMessages (trace st)
  /\ files (snd (awaitAll env calls st)) = files st
  /\ ((forall c exitCode, c ∈ calls -> sh_rejects env c exitCode = false) ->
      fst (awaitAll env calls st) = Ok tt)
  /\ (forall e,
        fst (awaitAll env calls st) = Throw e ->
        exists c exitCode,
          c ∈ calls /\ e = ShellError exitCode
          /\ sh_rejects env c exitCode = true).
Proof.
  revert st. induction calls as [|c calls IH]; intros st.
  - simpl. repeat split; try reflexivity. intros e He. discriminate.
  - cbn [awaitAll]. unfold shell.
    destruct (sh_run env c (world st)) as [[exitCode stdout] w1].
    destruct (sh_rejects env c exitCode) eqn:Hrej.
    + set (st1 := {| world := w1; files := files st;
                     trace := trace st ++ [EvShell c] |}).
      destruct (IH st1) as (Hlog & Hfiles & _ & _). cbn [fst snd].
      split; [|split; [|split]].
      * rewrite Hlog. unfold st1. cbn [trace].
        rewrite logMessages_app. simpl. now rewrite app_nil_r.
      * rewrite Hfiles. reflexivity.
      * intros Hnever. rewrite (Hnever c exitCode) in Hrej
          by apply list_elem_of_here. discriminate.
      * intros e He. injection He as <-. exists c, exitCode.
        split; [apply list_elem_of_here|]. auto.
    + set (st1 := {| world := w1; files := files st;
                     trace := trace st ++ [EvShell c] |}).
      destruct (IH st1) as (Hlog & Hfiles & Hok & Hthrow).
      split; [|split; [|split]].
      * rewrite Hlog. unfold st1. cbn [trace].
        rewrite logMessages_app. simpl. now rewrite app_nil_r.
      * rewrite Hfiles. reflexivity.
      * intros Hnever. apply Hok. intros c' code Hc'.
        apply Hnever. now apply list_elem_of_further.
      * intros e He. destruct (Hthrow e He) as (c' & code & Hc' & Hrest).
        exists c', code. split; [now apply list_elem_of_further|exact Hrest].
Qed.

(** Awaiting all the commands succeeds exactly when each of them
    resolves. *)
Lemma awaitAll_resolves {W : Type} (env : Env W) (calls : list ShellCall)
    (st : State W) :
  fst (awaitAll env calls st) = Ok tt
  <-> is_Some (resolveAll env calls (world st)).
Proof.
  revert st. induction calls as [|c calls IH]; intros st.
  - simpl. split; eauto.
  - cbn [awaitAll resolveAll]. unfold shell.
    destruct (sh_run env c (world st)) as [[exitCode stdout] w1]. cbn [fst].
    destruct (sh_rejects env c exitCode).
    + cbn [fst]. split; [discriminate|]. intros [w Hw]. discriminate.
    + rewrite IH. reflexivity.
Qed.

(** X12: the install step completes exactly when every install command
    resolves, in particular for an empty list of versions, and it then
    logs its completion message exactly once; when an install command is
    rejected the step throws the error of a rejected install command and
    logs nothing. *)
Theorem installPyenvVersions_outcome {W : Type} (env : Env W)
    (pythonVersions : list string) (st : State W) :
  let result := installPyenvVersions env pythonVersions st in
  (fst result = Ok tt
   <-> is_Some (resolveAll env (map pyenvInstallFor pythonVersions) (world st)))
  /\ (resolveAll env (map pyenvInstallFor pythonVersions) (world st) = None ->
      logMessages (trace (snd result)) = logMessages (trace st)
      /\ exists version exitCode,
           version ∈ pythonVersions
           /\ sh_rejects env (pyenvInstallFor version) exitCode = true
           /\ fst result = Throw (ShellError exitCode))
  /\ ((forall version exitCode,
          version ∈ pythonVersions ->
          sh_rejects env (pyenvInstallFor version) exitCode = false) ->
      fst result = Ok tt)
  /\ (fst result = Ok tt ->
      logMessages (trace (snd result))
      = logMessages (trace st)
        ++ ["Installed equivalent pyenv-managed Python versions."])
  /\ (forall e,
        fst result = Throw e ->
        logMessages (trace (snd result)) = logMessages (trace st)
        /\ exists version exitCode,
             version ∈ pythonVersions /\ e = ShellError exitCode
             /\ sh_rejects env (pyenvInstallFor version) exitCode = true)
  /\ (pythonVersions = [] -> fst result = Ok tt).
Proof.
  intros result. unfold result, installPyenvVersions, bind.
  destruct (awaitAll_facts env (map pyenvInstallFor pythonVersions) st)
    as (Hlog & _ & Hok & Hthrow).
  pose proof (awaitAll_resolves env (map pyenvInstallFor pythonVersions) st)
    as Hiff.
  destruct (awaitAll env (map pyenvInstallFor pythonVersions) st)
    as [[[]|e] st'] eqn:Hrun; cbn [fst snd] in *.
  - split.
    { split; [intros _; apply Hiff; reflexivity|reflexivity]. }
    split.
    { intros Hnone. destruct (proj1 Hiff eq_refl) as [w Hw]. congruence. }
    split; [intros _; reflexivity|]. split.
    + intros _. unfold loggerInfo, emit. cbn [snd trace].
      now rewrite logMessages_app, Hlog.
    + split; [intros e He; discriminate|reflexivity].
  - assert (Hrejected : exists version exitCode,
               version ∈ pythonVersions /\ e = ShellError exitCode
               /\ sh_rejects env (pyenvInstallFor version) exitCode = true).
    { destruct (Hthrow e eq_refl) as (c & code & Hc & He & Hrej).
      apply list_elem_of_In, in_map_iff in Hc as (version & <- & Hv).
      exists version, code. split; [now apply list_elem_of_In|auto]. }
    split.
    { split; [discriminate|]. intros Hsome. apply Hiff in Hsome. discriminate. }
    split.
    { intros _. split; [exact Hlog|].
      destruct Hrejected as (version & code & Hv & -> & Hrej).
      exists version, code. auto. }
    split.
    + intros Hnever. exfalso.
      assert (Hnone : @Throw unit e = Ok tt); [|discriminate].
      apply Hok. intros c code Hc.
      apply list_elem_of_In, in_map_iff in Hc as (version & <- & Hv).
      apply Hnever. now apply list_elem_of_In.
    + split; [discriminate|]. split.
      * intros e' He'. injection He' as <-. split; [exact Hlog|exact Hrejected].
      * intros ->. simpl in Hrun. discriminate.
Qed.

Lemma installPyenvVersions_outcome_witness :
  (forall version exitCode,
      version ∈ ["python@3.9"; "python@3.8"] ->
      sh_rejects (mockEnv []) (pyenvInstallFor version) exitCode = false)
  /\ fst (installPyenvVersions (mockEnv []) ["python@3.9"; "python@3.8"]
            (initialState 0%nat)) = Ok tt
  /\ logMessages (trace (snd (installPyenvVersions (mockEnv [])
                                ["python@3.9"; "python@3.8"] (initialState 0%nat))))
     = logMessages [] ++ ["Installed equivalent pyenv-managed Python versions."]
  /\ resolveAll thirdFailsEnv
       (map pyenvInstallFor ["python@3.9"; "python@3.8"; "python@3.7"]) 0%nat
     = None
  /\ logMessages (trace (snd (installPyenvVersions thirdFailsEnv
                                ["python@3.9"; "python@3.8"; "python@3.7"]
                                (initialState 0%nat))))
     = logMessages []
  /\ exists version exitCode,
       version ∈ ["python@3.9"; "python@3.8"; "python@3.7"]
       /\ sh_rejects thirdFailsEnv (pyenvInstallFor version) exitCode = true
       /\ fst (installPyenvVersions thirdFailsEnv
                 ["python@3.9"; "python@3.8"; "python@3.7"] (initialState 0%nat))
          = Throw (ShellError exitCode).
Proof.
  assert (Hnever : forall version exitCode,
             version ∈ ["python@3.9"; "python@3.8"] ->
             sh_rejects (mockEnv []) (pyenvInstallFor version) exitCode = false)
    by reflexivity.
  split; [exact Hnever|].
  destruct (installPyenvVersions_outcome (mockEnv []) ["python@3.9"; "python@3.8"]
              (initialState 0%nat)) as (_ & _ & Hok & Hlogged & _).
  destruct (installPyenvVersions_outcome thirdFailsEnv
              ["python@3.9"; "python@3.8"; "python@3.7"]
              (initialState 0%nat)) as (_ & Hstop & _).
  split; [exact (Hok Hnever)|]. split; [exact (Hlogged (Hok Hnever))|].
  split; [reflexivity|]. exact (Hstop eq_refl).
Defined.

Lemma pyenvInstallFor_python (rest : string) :
  pyenvInstallFor ("python@" +:+ rest) = pyenvInstall rest.
Proof.
  unfold pyenvInstallFor, PYTHON_AT. cbv zeta.
  now rewrite replace_python_prefix.
Qed.

(** X13: fed with the extracted versions, the install step asks the
    version manager for exactly the text that follows [python@] in a
    dependency of one of the packages, and asks for no version twice. *)
Theorem install_extracted_versions (packages : list Package) :
  Forall (fun c =>
            exists pkg rest,
              pkg ∈ packages
              /\ ("python@" +:+ rest) ∈ pkg_dependencies pkg
              /\ c = {| sh_strings := ["pyenv install -s "; EmptyString];
                        sh_values := [rest]; sh_quiet := false |})
         (map pyenvInstallFor (extractPythonVersions packages))
  /\ NoDup (map pyenvInstallFor (extractPythonVersions packages))
  /\ forall W (env : Env W) (st : State W),
       shellCalls (trace (snd (installPyenvVersions env
                                 (extractPythonVersions packages) st)))
       = shellCalls (trace st)
         ++ map pyenvInstallFor (extractPythonVersions packages).
Proof.
  assert (Hshape : forall version,
             version ∈ extractPythonVersions packages ->
             exists pkg rest,
               pkg ∈ packages /\ version ∈ pkg_dependencies pkg
               /\ version = "python@" +:+ rest).
  { intros version Hin.
    apply extractPythonVersions_elem in Hin as (pkg & Hpkg & Hdep & Hpy).
    apply isPythonDep_spec in Hpy as [rest Hrest]. eauto. }
  split; [|split].
  - apply Forall_forall. intros c Hc.
    apply list_elem_of_In, in_map_iff in Hc as (version & <- & Hv).
    apply list_elem_of_In in Hv.
    destruct (Hshape version Hv) as (pkg & rest & Hpkg & Hdep & ->).
    exists pkg, rest. split; [exact Hpkg|]. split; [exact Hdep|].
    apply pyenvInstallFor_python.
  - apply NoDup_map_inj; [|apply extractPythonVersions_NoDup].
    intros v1 v2 Hv1 Hv2 Heq.
    destruct (Hshape v1 Hv1) as (_ & r1 & _ & _ & ->).
    destruct (Hshape v2 Hv2) as (_ & r2 & _ & _ & ->).
    rewrite !pyenvInstallFor_python in Heq. injection Heq as ->. reflexivity.
  - intros W env st. apply installPyenvVersions_calls.
Qed.

(** ** Symlink step: failures *)

(** X14: when a symlink command is rejected, [createSymlinks] throws its
    shell error at once: the commands before it have run and been logged,
    the rejected one is not logged, the later ones are not run, and the
    rehash command is not issued. *)
Theorem createSymlinks_stops_at_rejection {W : Type} (env : Env W)
    (symlinkCommands : list string) (st : State W) :
  resolveAll env (map runCommand symlinkCommands) (world st) = None ->
  exists done failed rest exitCode delta,
    symlinkCommands = done ++ failed :: rest
    /\ sh_rejects env (runCommand failed) exitCode = true
    /\ fst (createSymlinks env symlinkCommands st) = Throw (ShellError exitCode)
    /\ trace (snd (createSymlinks env symlinkCommands st)) = trace st ++ delta
    /\ shellCalls delta
       = map (fun cmd =>
                {| sh_strings := [EmptyString; EmptyString];
                   sh_values := [cmd]; sh_quiet := true |})
             (done ++ [failed])
    /\ logMessages delta
       = map (fun cmd => "Executed symlink command: " +:+ cmd) done
    /\ EvShell {| sh_strings := ["pyenv rehash"]; sh_values := [];
                  sh_quiet := false |} ∉ delta.
Proof.
  intros Hnone. rewrite createSymlinks_unfold.
  pose proof (shellLogLoop_trace env runCommand
                (fun cmd => "Executed symlink command: " +:+ cmd)
                symlinkCommands st) as Hloop.
  cbv beta in Hloop. unfold symlinkLoop.
  destruct (forOf symlinkCommands _ st) as [[u|e] st1].
  - destruct Hloop as (Hsome & _). congruence.
  - destruct Hloop as (_ & done & failed & rest & code & Hsplit & He & Hrej & _ & Ht).
    exists done, failed, rest, code,
      (flat_map (fun cmd => [EvShell (runCommand cmd);
                             EvLog ("Executed symlink command: " +:+ cmd)]) done
       ++ [EvShell (runCommand failed)]).
    split; [exact Hsplit|]. split; [exact Hrej|].
    split; [cbn [fst]; now rewrite He|]. split; [exact Ht|].
    split.
    { rewrite shellCalls_app, shellCalls_loop, map_app. reflexivity. }
    split.
    { rewrite logMessages_app, logMessages_loop. simpl. now rewrite app_nil_r. }
    intros Hin. apply elem_of_app in Hin as [Hin|Hin].
    + now apply (rehash_not_in_symlinkEvents done).
    + apply list_elem_of_singleton in Hin. discriminate.
Qed.

Lemma createSymlinks_stops_at_rejection_witness :
  resolveAll thirdFailsEnv
    (map runCommand ["ln -s -f /a /b"; "ln -s -f /c /d"; "ln -s -f /e /f"]) 0%nat
  = None
  /\ exists done failed rest exitCode delta,
       ["ln -s -f /a /b"; "ln -s -f /c /d"; "ln -s -f /e /f"]
       = done ++ failed :: rest
       /\ sh_rejects thirdFailsEnv (runCommand failed) exitCode = true
       /\ fst (createSymlinks thirdFailsEnv
                 ["ln -s -f /a /b"; "ln -s -f /c /d"; "ln -s -f /e /f"]
                 (initialState 0%nat))
          = Throw (ShellError exitCode)
       /\ trace (snd (createSymlinks thirdFailsEnv
                        ["ln -s -f /a /b"; "ln -s -f /c /d"; "ln -s -f /e /f"]
                        (initialState 0%nat)))
          = [] ++ delta
       /\ shellCalls delta
          = map (fun cmd =>
                   {| sh_strings := [EmptyString; EmptyString];
                      sh_values := [cmd]; sh_quiet := true |})
                (done ++ [failed])
       /\ logMessages delta
          = map (fun cmd => "Executed symlink command: " +:+ cmd) done
       /\ EvShell {| sh_strings := ["pyenv rehash"]; sh_values := [];
                     sh_quiet := false |} ∉ delta.
Proof.
  split; [reflexivity|].
  exact (createSymlinks_stops_at_rejection thirdFailsEnv
           ["ln -s -f /a /b"; "ln -s -f /c /d"; "ln -s -f /e /f"]
           (initialState 0%nat) eq_refl).
Defined.

(** ** Profile update, repeated *)

Lemma updateZshrc_run {W : Type} (env : Env W) (zshrcPath : string)
    (st : State W) :
  fs_denied env zshrcPath (world st) = false ->
  updateZshrc env zshrcPath st
  = (Ok tt,
     {| world := world st;
        files := <[zshrcPath :=
                     default EmptyString (files st !! zshrcPath) +:+ zshrcContent]>
                 (files st);
        trace := trace st
                 ++ [EvAppend zshrcPath zshrcContent;
                     EvLog "Updated .zshrc to prioritize pyenv over Brew-managed Python."] |}).
Proof.
  intros Hallowed. unfold updateZshrc, bind, appendFile. rewrite Hallowed.
  unfold loggerInfo, emit. cbn [world files trace]. now rewrite <- app_assoc.
Qed.

Lemma str_app_cancel_l (a b : string) : a +:+ b = a -> b = EmptyString.
Proof.
  intros Heq. apply (f_equal String.length) in Heq.
  rewrite str_app_length in Heq. destruct b; [reflexivity|simpl in Heq; lia].
Qed.

(** X15: the profile update does not look at what the file already holds:
    run twice, it leaves the snippet twice at the end of the file and logs
    its message twice, so the second run does change the file again. *)
Theorem updateZshrc_twice {W : Type} (env : Env W) (zshrcPath : string)
    (st : State W) :
  fs_denied env zshrcPath (world st) = false ->
  let st1 := snd (updateZshrc env zshrcPath st) in
  let st2 := snd (updateZshrc env zshrcPath st1) in
  fst (updateZshrc env zshrcPath st1) = Ok tt
  /\ files st2 !! zshrcPath
     = Some (default EmptyString (files st !! zshrcPath)
             +:+ zshrcContent +:+ zshrcContent)
  /\ files st2 !! zshrcPath <> files st1 !! zshrcPath
  /\ logMessages (trace st2)
     = logMessages (trace st)
       ++ ["Updated .zshrc to prioritize pyenv over Brew-managed Python.";
           "Updated .zshrc to prioritize pyenv over Brew-managed Python."].
Proof.
  intros Hallowed st1 st2. unfold st2, st1.
  rewrite (updateZshrc_run env zshrcPath st Hallowed). cbn [snd].
  rewrite updateZshrc_run by exact Hallowed. cbn [fst snd world files trace].
  rewrite !lookup_insert_eq. cbn [from_option id].
  split; [reflexivity|]. split; [now rewrite str_app_assoc|].
  split.
  - intros Heq. injection Heq as Heq.
    apply str_app_cancel_l in Heq. discriminate.
  - rewrite !logMessages_app. simpl. rewrite <- app_assoc. reflexivity.
Qed.

Lemma updateZshrc_twice_witness :
  fs_denied failingEnv "/Users/test/.zshrc" tt = false
  /\ files (snd (updateZshrc failingEnv "/Users/test/.zshrc"
                   (snd (updateZshrc failingEnv "/Users/test/.zshrc"
                           (initialState tt)))))
       !! "/Users/test/.zshrc"
     = Some (default EmptyString ((∅ : gmap string string) !! "/Users/test/.zshrc")
             +:+ zshrcContent +:+ zshrcContent).
Proof.
  split; [reflexivity|].
  destruct (updateZshrc_twice failingEnv "/Users/test/.zshrc" (initialState tt)
              eq_refl) as (_ & Hfile & _).
  exact Hfile.
Defined.

(** ** Classifier and reinstall step together *)

(** X16: fed with the classified packages, the reinstall loop only ever
    reinstalls formulae that have a dependency starting with [python@],
    each under its own name and in the order of the formulae, whatever the
    gateway answers. *)
Theorem reinstall_classified_packages {W : Type} (env : Env W)
    (formulae : list Formula) (st : State W) :
  exists issued,
    shellCalls (trace (snd (reinstallBrewPackages env
                              (identifyBrewPythonPackages formulae) st)))
    = shellCalls (trace st)
      ++ map (fun formula =>
                {| sh_strings := ["brew reinstall "; " 2>/dev/null"];
                   sh_values := [name formula]; sh_quiet := true |})
             issued
    /\ issued `prefix_of` List.filter dependsOnPython formulae
    /\ Forall DependsOnPython issued.
Proof.
  pose proof (reinstallBrewPackages_trace env
                (identifyBrewPythonPackages formulae) st) as Hrun.
  assert (Hpkgs : exists pkgs,
    shellCalls (trace (snd (reinstallBrewPackages env
                              (identifyBrewPythonPackages formulae) st)))
    = shellCalls (trace st) ++ map (fun pkg => brewReinstall (pkg_name pkg)) pkgs
    /\ pkgs `prefix_of` identifyBrewPythonPackages formulae).
  { destruct (reinstallBrewPackages env (identifyBrewPythonPackages formulae) st)
      as [[u|e] st']; cbn [snd].
    - destruct Hrun as (_ & Ht). exists (identifyBrewPythonPackages formulae).
      split; [|reflexivity].
      now rewrite Ht, shellCalls_app, reinstallEvents_calls.
    - destruct Hrun as (done & failed & rest & code & Hsplit & _ & _ & Ht).
      exists (done ++ [failed]). split.
      + rewrite Ht, !shellCalls_app, reinstallEvents_calls, map_app.
        reflexivity.
      + exists rest. rewrite Hsplit, <- app_assoc. reflexivity. }
  destruct Hpkgs as (pkgs & Hcalls & [rest Hprefix]).
  unfold identifyBrewPythonPackages in Hprefix.
  apply map_eq_app in Hprefix
    as (issued & later & Hfilter & Hissued & _).
  exists issued. split; [|split].
  - rewrite Hcalls, <- Hissued, map_map. reflexivity.
  - exists later. exact Hfilter.
  - apply Forall_forall. intros formula Hin. apply dependsOnPython_spec.
    assert (Hall : In formula (List.filter dependsOnPython formulae)).
    { rewrite Hfilter. apply in_or_app. left. now apply list_elem_of_In. }
    now apply filter_In in Hall.
Qed.

(** ** Symlink command builder: a separator at the end of the root *)

Lemma normalizeStep_empty (allowAboveRoot : bool) (res : list string) :
  Path.normalizeStep allowAboveRoot res EmptyString = res.
Proof. reflexivity. Qed.

Lemma isAbsolute_app (a b : string) :
  a <> EmptyString -> Path.isAbsolute (a +:+ b) = Path.isAbsolute a.
Proof. destruct a; [congruence|reflexivity]. Qed.

Lemma join_root_separator (pyenvRoot x : string) :
  pyenvRoot <> EmptyString ->
  x <> EmptyString ->
  Path.join [pyenvRoot +:+ "/"; "versions"; x]
  = Path.join [pyenvRoot; "versions"; x].
Proof.
  intros Hroot Hx. unfold Path.join. simpl List.filter.
  assert (Htx : truthy x = true) by (destruct x; [congruence|reflexivity]).
  assert (Htr : truthy pyenvRoot = true)
    by (destruct pyenvRoot; [congruence|reflexivity]).
  assert (Htr' : truthy (pyenvRoot +:+ "/") = true)
    by (destruct pyenvRoot; reflexivity).
  rewrite Htx, Htr, Htr'.
  destruct x as [|c x']; [congruence|].
  set (tail := "versions" +:+ String SLASH (String c x')).
  change (String.concat "/" [pyenvRoot +:+ "/"; "versions"; String c x'])
    with ((pyenvRoot +:+ "/") +:+ String SLASH tail).
  change (String.concat "/" [pyenvRoot; "versions"; String c x'])
    with (pyenvRoot +:+ String SLASH tail).
  rewrite str_app_assoc.
  change ("/" +:+ String SLASH tail) with (String SLASH (String SLASH tail)).
  set (p1 := pyenvRoot +:+ String SLASH (String SLASH tail)).
  set (p2 := pyenvRoot +:+ String SLASH tail).
  assert (Hne1 : p1 <> EmptyString) by (unfold p1; destruct pyenvRoot; discriminate).
  assert (Hne2 : p2 <> EmptyString) by (unfold p2; destruct pyenvRoot; discriminate).
  assert (Habs : Path.isAbsolute p1 = Path.isAbsolute p2).
  { unfold p1, p2. now rewrite !isAbsolute_app. }
  assert (Htrail : Path.trailingSeparator p1 = Path.trailingSeparator p2).
  { unfold Path.trailingSeparator, p1, p2, tail.
    change (pyenvRoot +:+ String SLASH (String SLASH ("versions" +:+ String SLASH (String c x'))))
      with (pyenvRoot +:+ ("//versions/" +:+ String c x')).
    change (pyenvRoot +:+ String SLASH ("versions" +:+ String SLASH (String c x')))
      with (pyenvRoot +:+ ("/versions/" +:+ String c x')).
    rewrite <- !str_app_assoc. now rewrite !lastChar_app. }
  assert (Hbody : forall allow,
             Path.normalizeString p1 allow = Path.normalizeString p2 allow).
  { intros allow. unfold Path.normalizeString, Path.segments, p1, p2.
    rewrite !split_app.
    change (split SLASH (String SLASH tail)) with (EmptyString :: split SLASH tail).
    rewrite !fold_left_app. cbn [fold_left].
    now rewrite normalizeStep_empty. }
  rewrite (normalize_nonempty _ Hne1), (normalize_nonempty _ Hne2).
  cbv zeta. now rewrite Habs, Htrail, Hbody.
Qed.

(** X17: a separator at the end of a non-empty root makes no difference:
    the commands generated for [pyenvRoot/] are those generated for
    [pyenvRoot]. *)
Theorem generateSymlinkCommands_root_separator (pythonDirs : list string)
    (pyenvRoot : string) :
  pyenvRoot <> EmptyString ->
  generateSymlinkCommands pythonDirs (pyenvRoot +:+ "/")
  = generateSymlinkCommands pythonDirs pyenvRoot.
Proof.
  intros Hroot. unfold generateSymlinkCommands. apply map_ext.
  intros versionPath. unfold symlinkCommand. cbv zeta.
  rewrite join_root_separator; [reflexivity|exact Hroot|].
  intros Hempty. pose proof (brew_suffix_plain (Path.basename versionPath)) as Hplain.
  rewrite Hempty in Hplain. discriminate.
Qed.

Lemma generateSymlinkCommands_root_separator_witness :
  "/Users/test/.pyenv" <> EmptyString
  /\ generateSymlinkCommands ["/usr/local/Cellar/python@3.9/3.9.0"]
       ("/Users/test/.pyenv" +:+ "/")
     = generateSymlinkCommands ["/usr/local/Cellar/python@3.9/3.9.0"]
         "/Users/test/.pyenv".
Proof.
  assert (Hroot : "/Users/test/.pyenv" <> EmptyString) by discriminate.
  split; [exact Hroot|].
  exact (generateSymlinkCommands_root_separator
           ["/usr/local/Cellar/python@3.9/3.9.0"] "/Users/test/.pyenv" Hroot).
Defined.

(** ** Fetch step: nothing listed *)

Lemma formulaNames_none (text : string) :
  formulaNames text = []
  <-> Forall (fun c => c = LF) (String.list_ascii_of_string text).
Proof.
  unfold formulaNames. induction text as [|c text IH]; simpl.
  - split; [constructor|reflexivity].
  - destruct (Ascii.eqb_spec c LF) as [->|Hne].
    + simpl. rewrite IH. split.
      * intros Hall. now constructor.
      * intros Hall. now inversion Hall.
    + destruct (split LF text) as [|h t]; simpl.
      * split; [discriminate|]. intros Hall. inversion Hall. contradiction.
      * split; [discriminate|]. intros Hall. inversion Hall. contradiction.
Qed.

(** X18: the list output gives no name exactly when it is empty or made of
    line feeds only; the fetch then issues the list command alone and
    returns the empty list. *)
Theorem fetchBrewFormulae_nothing_listed {W : Type} (env : Env W) (st : State W)
    (exitCode : Z) (text : string) (w0 : W) :
  (formulaNames text = []
   <-> Forall (fun c => c = LF) (String.list_ascii_of_string text))
  /\ (sh_run env brewList (world st) = (exitCode, text, w0) ->
      sh_rejects env brewList exitCode = false ->
      Forall (fun c => c = LF) (String.list_ascii_of_string text) ->
      fetchBrewFormulae env st
      = (Ok [],
         {| world := w0; files := files st;
            trace := trace st
                     ++ [EvShell {| sh_strings := ["brew list --formula"];
                                    sh_values := []; sh_quiet := false |}] |})).
Proof.
  split; [apply formulaNames_none|].
  intros Hlist Hrej Hblank. apply formulaNames_none in Hblank.
  rewrite (fetchBrewFormulae_ok env st exitCode text w0 [] w0 Hlist Hrej).
  - now rewrite Hblank.
  - rewrite Hblank. apply infoRuns_nil.
Qed.

Lemma fetchBrewFormulae_nothing_listed_witness :
  sh_run silentEnv brewList tt = (0, EmptyString, tt)
  /\ Forall (fun c => c = LF) (String.list_ascii_of_string EmptyString)
  /\ fetchBrewFormulae silentEnv (initialState tt)
     = (Ok [],
        {| world := tt; files := ∅;
           trace := [] ++ [EvShell {| sh_strings := ["brew list --formula"];
                                      sh_values := []; sh_quiet := false |}] |}).
Proof.
  assert (Hblank : Forall (fun c => c = LF) (String.list_ascii_of_string EmptyString))
    by constructor.
  split; [reflexivity|]. split; [exact Hblank|].
  destruct (fetchBrewFormulae_nothing_listed silentEnv (initialState tt)
              0 EmptyString tt) as (_ & Hnone).
  exact (Hnone eq_refl eq_refl Hblank).
Defined.
